(** * Session relay of the Gemini Live backend (backend/main.py)

    A shallow embedding of the WebSocket relay: the JSON values the two
    transports carry, the Python dictionary operations the handlers use on
    them, the session table [active_sessions], the upstream service
    [GeminiLiveService] and the client endpoint [websocket_endpoint].

    Conventions.
    - A Python [str] is a [string], one character per element; the two
      literals with letters outside ASCII are written in UTF-8 and their
      length is never taken.
    - A Python [dict] is an association list read at the first binding of
      a key.
    - A JSON number is a rational; numbers are only passed through, and
      a [float] field is known to return unchanged only the numbers of
      magnitude at most 2^53.
    - [datetime.now()] is the next reading of a clock; a time value is the
      index of the reading.
    - Objects that are shared by reference (sessions, client sockets) live
      in stores indexed by [nat]; a reference is an index.
    - An exception is an outcome [Raise e]; a coroutine that waits for a
      message that never arrives has outcome [Blocked]. *)

From Stdlib Require Import QArith_base.
From stdpp Require Import gmap strings list fin_maps.

Local Open Scope string_scope.
Set Warnings "-register-all".

(** ** JSON values and the Python operations on them *)

Inductive json : Type :=
| JNull
| JBool (b : bool)
| JNum (q : Q)
| JStr (s : string)
| JList (l : list json)
| JDict (d : list (string * json)).

Inductive exn : Type :=
| AttributeError
| TypeError
| KeyError (k : string)
| ValidationError
| JSONDecodeError
| WebSocketDisconnect
| ConnectionClosed
| RuntimeError
| OSError
| HTTPException (status_code : nat).

Inductive res (A : Type) : Type :=
| Ok (a : A)
| Raise (e : exn)
| Blocked.
Arguments Ok {A} a.
Arguments Raise {A} e.
Arguments Blocked {A}.

Notation "'let?' x := r 'in' k" :=
  (match r with Ok x => k | Raise e => Raise e | Blocked => Blocked end)
  (at level 10, x name, r at level 100, k at level 200, only parsing).

(** Lookup in a dictionary literal: the first binding of the key. *)
Fixpoint assoc (k : string) (d : list (string * json)) : option json :=
  match d with
  | [] => None
  | (k', v) :: d' => if String.eqb k k' then Some v else assoc k d'
  end.

(** [bool(v)] *)
Definition truthy (v : json) : bool :=
  match v with
  | JNull => false
  | JBool b => b
  | JNum q => negb (Z.eqb (Qnum q) 0)
  | JStr s => negb (String.eqb s "")
  | JList l => match l with [] => false | _ => true end
  | JDict d => match d with [] => false | _ => true end
  end.

(** [v.get(k, dflt)]: only a dict has [get]. *)
Definition py_get (v : json) (k : string) (dflt : json) : res json :=
  match v with
  | JDict d => Ok (default dflt (assoc k d))
  | _ => Raise AttributeError
  end.

(** [sub in s] on two strings. *)
Fixpoint is_substring (sub s : string) : bool :=
  String.prefix sub s
  || match s with
     | EmptyString => false
     | String _ s' => is_substring sub s'
     end.

Definition is_str (k : string) (v : json) : bool :=
  match v with JStr s => String.eqb s k | _ => false end.

(** [k in v] for a string [k]. *)
Definition py_contains (k : string) (v : json) : res bool :=
  match v with
  | JDict d => Ok (bool_decide (is_Some (assoc k d)))
  | JList l => Ok (existsb (is_str k) l)
  | JStr s => Ok (is_substring k s)
  | _ => Raise TypeError
  end.

(** [v[k]] for a string [k]. *)
Definition py_getitem (v : json) (k : string) : res json :=
  match v with
  | JDict d =>
      match assoc k d with Some x => Ok x | None => Raise (KeyError k) end
  | _ => Raise TypeError
  end.

Fixpoint chars (s : string) : list json :=
  match s with
  | EmptyString => []
  | String c s' => JStr (String c EmptyString) :: chars s'
  end.

(** The elements a [for] loop over [v] visits. *)
Definition py_iter (v : json) : res (list json) :=
  match v with
  | JList l => Ok l
  | JDict d => Ok (map (fun kv => JStr (fst kv)) d)
  | JStr s => Ok (chars s)
  | _ => Raise TypeError
  end.

(** [len(v)] *)
Definition py_len (v : json) : res nat :=
  match v with
  | JStr s => Ok (String.length s)
  | JList l => Ok (length l)
  | JDict d => Ok (length d)
  | _ => Raise TypeError
  end.

(** ** Data models *)

(** A number of magnitude at most 2^53.  A [float] holds every integer of
    that size exactly, so a [float] field returns such a number unchanged;
    a larger integer is rounded by the field, or refused when it is
    beyond the range of a [float]. *)
Definition float_safe (q : Q) : bool :=
  Z.leb (Z.abs (Qnum q)) (2 ^ 53 * Zpos (Qden q)).

(** Field validation of the pydantic models.  The library decides which
    values of another type it converts, rounds or refuses; the model
    fixes only that a string is accepted for a [str] field and a number of
    magnitude at most 2^53 for a [float] field. *)
Class Pydantic : Type := {
  validate_str : json -> option string;
  validate_float : json -> option Q;
  validate_str_str : forall s, validate_str (JStr s) = Some s;
  validate_float_num :
    forall q, float_safe q = true -> validate_float (JNum q) = Some q
}.

(** The validator that accepts exactly the declared type. *)
#[refine] Instance strict_pydantic : Pydantic := {|
  validate_str v := match v with JStr s => Some s | _ => None end;
  validate_float v := match v with JNum q => Some q | _ => None end
|}.
Proof. all: reflexivity. Defined.

(** A validator that refuses, besides the values of another type, every
    number beyond 2^53. *)
Definition cautious_pydantic : Pydantic :=
  {| validate_str v := match v with JStr s => Some s | _ => None end;
     validate_float v :=
       match v with
       | JNum q => if float_safe q then Some q else None
       | _ => None
       end;
     validate_str_str := fun s => eq_refl;
     validate_float_num := fun q (H : float_safe q = true) =>
       match eq_sym H in _ = b
             return (if b then Some q else None) = Some q with
       | eq_refl => eq_refl
       end |}.

Record ShoppingListItem : Type := {
  name : string;
  quantity : Q;
  unit_ : option string;
  category : string
}.

Record ShoppingListState : Type := {
  items : list ShoppingListItem;
  conversation_context : string;
  last_update : nat;
  confidence : Q
}.

(** "Ogólne", the default category of the item model (UTF-8). *)
Definition default_category : string := "Ogólne".
Definition default_quantity : Q := 1 # 1.
Definition default_confidence : Q := 8 # 10.

Section Models.
Context {P : Pydantic}.

(** [Optional[str]]: [None] is accepted as it is. *)
Definition validate_opt_str (v : json) : option (option string) :=
  match v with
  | JNull => Some None
  | _ => Some <$> validate_str v
  end.

(** [ShoppingListItem(name=n, quantity=q, unit=u, category=c)] *)
Definition new_ShoppingListItem (n q u c : json) : res ShoppingListItem :=
  match validate_str n, validate_float q, validate_opt_str u,
        validate_str c with
  | Some n', Some q', Some u', Some c' =>
      Ok {| name := n'; quantity := q'; unit_ := u'; category := c' |}
  | _, _, _, _ => Raise ValidationError
  end.

(** [ShoppingListState(items=its, last_update=t, confidence=c)] *)
Definition new_ShoppingListState (its : list ShoppingListItem) (t : nat)
    (c : json) : res ShoppingListState :=
  match validate_float c with
  | Some c' =>
      Ok {| items := its; conversation_context := "";
            last_update := t; confidence := c' |}
  | None => Raise ValidationError
  end.

End Models.

(** ** Messages on the two transports *)

(** The text of an [error] message. *)
Inductive error_text : Type :=
| StrOf (e : exn)                  (* str(e) *)
| ServiceError (e : exn)           (* f"Service error: {str(e)}" *)
| Literal (s : string).

(** What [send_json] writes to a client. *)
Inductive client_msg : Type :=
| Status (status message : string)
| Transcript (text : json) (isUser : bool)
| ShoppingListUpdated (shopping_list : ShoppingListState)
| AudioReceived (timestamp : json + nat) (chunk_size : nat)
| SessionStarted (user_id message : string)
| SessionStopped (message : string)
| Pong (timestamp : nat)
| Error (message : error_text).

(** What the service writes to the upstream API. *)
Inductive upstream_msg : Type :=
| Setup
| RealtimeInput (data : json)
| ToolResponse (fname : string) (id : json) (response : json).

Inductive ws_phase : Type := Connecting | Connected | Disconnected.

(** A client WebSocket object.  [ws_fault = Some e]: the peer is gone and
    every operation on the socket raises [e]. *)
Record WebSocket : Type := {
  ws_state : ws_phase;
  ws_fault : option exn;
  ws_sent : list client_msg
}.

(** The upstream connection of one service. *)
Record Upstream : Type := {
  up_sent : list upstream_msg;
  up_closed : bool;
  up_send_fault : option exn;
  up_close_fault : option exn
}.

Record GeminiLiveService : Type := {
  websocket : option Upstream;
  is_connected : bool;
  message_count : nat
}.

Record UserSession : Type := {
  user_id : string;
  us_websocket : option nat;
  us_gemini_service : option GeminiLiveService;
  us_is_connected : bool;
  created_at : nat;
  last_activity : nat;
  shopping_list_state : ShoppingListState
}.

(** The read-only view [to_data] gives of a session. *)
Record UserSessionData : Type := {
  d_user_id : string;
  d_is_connected : bool;
  d_created_at : nat;
  d_last_activity : nat
}.

Definition to_data (s : UserSession) : UserSessionData :=
  {| d_user_id := user_id s; d_is_connected := us_is_connected s;
     d_created_at := created_at s; d_last_activity := last_activity s |}.

Inductive task : Type := NoTask | Scheduled | Cancelled.

(** The process: the table [active_sessions], the stores of the shared
    objects and the clock; then what one connection owns: its service and
    the handle of its listening task. *)
Record State : Type := {
  active_sessions : gmap string nat;
  sessions : gmap nat UserSession;
  sockets : gmap nat WebSocket;
  clock : nat;
  gemini_service : GeminiLiveService;
  gemini_task : task
}.

Definition set_active_sessions (f : gmap string nat -> gmap string nat)
    (st : State) : State :=
  {| active_sessions := f (active_sessions st); sessions := sessions st;
     sockets := sockets st; clock := clock st;
     gemini_service := gemini_service st; gemini_task := gemini_task st |}.

Definition set_sessions (f : gmap nat UserSession -> gmap nat UserSession)
    (st : State) : State :=
  {| active_sessions := active_sessions st; sessions := f (sessions st);
     sockets := sockets st; clock := clock st;
     gemini_service := gemini_service st; gemini_task := gemini_task st |}.

Definition set_sockets (f : gmap nat WebSocket -> gmap nat WebSocket)
    (st : State) : State :=
  {| active_sessions := active_sessions st; sessions := sessions st;
     sockets := f (sockets st); clock := clock st;
     gemini_service := gemini_service st; gemini_task := gemini_task st |}.

Definition set_clock (f : nat -> nat) (st : State) : State :=
  {| active_sessions := active_sessions st; sessions := sessions st;
     sockets := sockets st; clock := f (clock st);
     gemini_service := gemini_service st; gemini_task := gemini_task st |}.

Definition set_gemini_service (f : GeminiLiveService -> GeminiLiveService)
    (st : State) : State :=
  {| active_sessions := active_sessions st; sessions := sessions st;
     sockets := sockets st; clock := clock st;
     gemini_service := f (gemini_service st); gemini_task := gemini_task st |}.

Definition set_gemini_task (t : task) (st : State) : State :=
  {| active_sessions := active_sessions st; sessions := sessions st;
     sockets := sockets st; clock := clock st;
     gemini_service := gemini_service st; gemini_task := t |}.

(** ** Coroutines: state, exceptions and blocking *)

Definition M (A : Type) : Type := State -> res A * State.

Definition ret {A} (a : A) : M A := fun st => (Ok a, st).
Definition raise {A} (e : exn) : M A := fun st => (Raise e, st).
Definition blocked {A} : M A := fun st => (Blocked, st).

Definition bind {A B} (m : M A) (k : A -> M B) : M B :=
  fun st =>
    match m st with
    | (Ok a, st') => k a st'
    | (Raise e, st') => (Raise e, st')
    | (Blocked, st') => (Blocked, st')
    end.

Notation "x <- m ;; k" := (bind m (fun x => k))
  (at level 100, m at next level, right associativity).
Notation "m ;; k" := (bind m (fun _ => k))
  (at level 100, right associativity).

Definition lift {A} (r : res A) : M A := fun st => (r, st).
Definition get_state : M State := fun st => (Ok st, st).
Definition modify (f : State -> State) : M unit := fun st => (Ok tt, f st).

(** [try: m  except Exception as e: h e] *)
Definition try_except {A} (m : M A) (h : exn -> M A) : M A :=
  fun st =>
    match m st with
    | (Raise e, st') => h e st'
    | r => r
    end.

(** [try: m  finally: f].  The clean-up runs on return and on an
    exception; an exception of the clean-up replaces the pending one. *)
Definition try_finally {A} (m : M A) (f : M unit) : M A :=
  fun st =>
    match m st with
    | (Ok a, st') => (_ <- f ;; ret a) st'
    | (Raise e, st') => (_ <- f ;; raise e) st'
    | (Blocked, st') => (Blocked, st')
    end.

(** [for x in l: body x] *)
Fixpoint for_each {A} (l : list A) (body : A -> M unit) : M unit :=
  match l with
  | [] => ret tt
  | x :: l' => body x ;; for_each l' body
  end.

(** [datetime.now()] *)
Definition datetime_now : M nat :=
  fun st => (Ok (clock st), set_clock S st).

(** ** The client transport *)

Definition ws_set_state (p : ws_phase) (w : WebSocket) : WebSocket :=
  {| ws_state := p; ws_fault := ws_fault w; ws_sent := ws_sent w |}.

Definition ws_push (m : client_msg) (w : WebSocket) : WebSocket :=
  {| ws_state := ws_state w; ws_fault := ws_fault w;
     ws_sent := ws_sent w ++ [m] |}.

(** [await websocket.accept()] *)
Definition accept (ws : nat) : M unit :=
  fun st =>
    match sockets st !! ws with
    | Some w =>
        match ws_fault w, ws_state w with
        | Some e, _ => (Raise e, st)
        | None, Connecting =>
            (Ok tt, set_sockets <[ws := ws_set_state Connected w]> st)
        | None, _ => (Raise RuntimeError, st)
        end
    | None => (Raise RuntimeError, st)
    end.

(** [await websocket.send_json(m)] *)
Definition send_json (ws : nat) (m : client_msg) : M unit :=
  fun st =>
    match sockets st !! ws with
    | Some w =>
        match ws_fault w, ws_state w with
        | Some e, _ => (Raise e, st)
        | None, Connected => (Ok tt, set_sockets <[ws := ws_push m w]> st)
        | None, _ => (Raise RuntimeError, st)
        end
    | None => (Raise RuntimeError, st)
    end.

(** [await websocket.close()] *)
Definition ws_close (ws : nat) : M unit :=
  fun st =>
    match sockets st !! ws with
    | Some w =>
        match ws_fault w, ws_state w with
        | Some e, _ => (Raise e, st)
        | None, Disconnected => (Raise RuntimeError, st)
        | None, _ =>
            (Ok tt, set_sockets <[ws := ws_set_state Disconnected w]> st)
        end
    | None => (Raise RuntimeError, st)
    end.

(** What [receive_json] gives the command loop: a decoded message or an
    exception ([WebSocketDisconnect] when the client left). *)
Inductive recv : Type :=
| Recv (data : json)
| RecvRaises (e : exn).

Definition receive_json (r : recv) : M json :=
  match r with
  | Recv data => ret data
  | RecvRaises e => raise e
  end.

(** ** GeminiLiveService *)

Definition new_GeminiLiveService : GeminiLiveService :=
  {| websocket := None; is_connected := false; message_count := 0 |}.

Definition g_set_websocket (u : option Upstream) (g : GeminiLiveService) :=
  {| websocket := u; is_connected := is_connected g;
     message_count := message_count g |}.

Definition g_set_is_connected (b : bool) (g : GeminiLiveService) :=
  {| websocket := websocket g; is_connected := b;
     message_count := message_count g |}.

Definition g_count (g : GeminiLiveService) :=
  {| websocket := websocket g; is_connected := is_connected g;
     message_count := S (message_count g) |}.

Definition up_push (m : upstream_msg) (u : Upstream) : Upstream :=
  {| up_sent := up_sent u ++ [m]; up_closed := up_closed u;
     up_send_fault := up_send_fault u; up_close_fault := up_close_fault u |}.

Definition up_set_closed (u : Upstream) : Upstream :=
  {| up_sent := up_sent u; up_closed := true;
     up_send_fault := up_send_fault u; up_close_fault := up_close_fault u |}.

(** [await self.websocket.send(json.dumps(m))] *)
Definition up_send (m : upstream_msg) : M unit :=
  fun st =>
    match websocket (gemini_service st) with
    | None => (Raise AttributeError, st)
    | Some u =>
        match up_send_fault u with
        | Some e => (Raise e, st)
        | None =>
            if up_closed u then (Raise ConnectionClosed, st)
            else (Ok tt, set_gemini_service
                           (g_set_websocket (Some (up_push m u))) st)
        end
    end.

(** [await self.websocket.close()]; closing twice is allowed. *)
Definition up_close : M unit :=
  fun st =>
    match websocket (gemini_service st) with
    | None => (Raise AttributeError, st)
    | Some u =>
        match up_close_fault u with
        | Some e => (Raise e, st)
        | None => (Ok tt, set_gemini_service
                            (g_set_websocket (Some (up_set_closed u))) st)
        end
    end.

Definition _send_setup_message : M unit := up_send Setup.

(** [connect]: [dial] is what [websockets.connect(ws_url)] gives. *)
Definition connect (dial : res Upstream) : M bool :=
  try_except
    (u <- lift dial ;;
     modify (set_gemini_service (g_set_websocket (Some u))) ;;
     modify (set_gemini_service (g_set_is_connected true)) ;;
     _send_setup_message ;;
     ret true)
    (fun _ =>
     modify (set_gemini_service (g_set_is_connected false)) ;;
     ret false).

Definition not_connected (g : GeminiLiveService) : bool :=
  negb (is_connected g) || negb (bool_decide (is_Some (websocket g))).

Definition send_audio_chunk (audio_data : json) : M unit :=
  st <- get_state ;;
  if not_connected (gemini_service st) then ret tt
  else
    try_except
      (up_send (RealtimeInput audio_data) ;;
       _ <- lift (py_len audio_data) ;;
       ret tt)
      (fun _ => ret tt).

Definition _send_function_response (call_id : json) (result : json) : M unit :=
  st <- get_state ;;
  if not_connected (gemini_service st) then ret tt
  else
    try_except
      (up_send (ToolResponse "update_shopping_list" call_id result))
      (fun _ => ret tt).

Definition disconnect : M unit :=
  st <- get_state ;;
  (if bool_decide (is_Some (websocket (gemini_service st)))
   then up_close else ret tt) ;;
  modify (set_gemini_service (g_set_is_connected false)).

(** ** Upstream messages *)

Section Handlers.
Context {P : Pydantic}.

(** One element of [args["items"]] to a [ShoppingListItem]. *)
Definition item_of (item_data : json) : res ShoppingListItem :=
  let? n := py_get item_data "name" (JStr "unknown") in
  let? q := py_get item_data "quantity" (JNum default_quantity) in
  let? u := py_get item_data "unit" JNull in
  let? c := py_get item_data "category" (JStr default_category) in
  new_ShoppingListItem n q u c.

(** The loop that fills [items]. *)
Fixpoint items_of (items_data : list json) : res (list ShoppingListItem) :=
  match items_data with
  | [] => Ok []
  | item_data :: rest =>
      let? item := item_of item_data in
      let? its := items_of rest in
      Ok (item :: its)
  end.

Definition _handle_shopping_list_update (func_call : json) (ws : nat)
    : M unit :=
  args <- lift (py_get func_call "args" (JDict [])) ;;
  items_data <- lift (py_get args "items" (JList [])) ;;
  conf <- lift (py_get args "confidence" (JNum default_confidence)) ;;
  elems <- lift (py_iter items_data) ;;
  its <- lift (items_of elems) ;;
  now <- datetime_now ;;
  shopping_list_state <- lift (new_ShoppingListState its now conf) ;;
  send_json ws (ShoppingListUpdated shopping_list_state).

Definition success : json := JDict [("result", JStr "success")].

Definition handle_part (ws : nat) (part : json) : M unit :=
  has_text <- lift (py_contains "text" part) ;;
  if has_text : bool then
    t <- lift (py_getitem part "text") ;;
    send_json ws (Transcript t false)
  else ret tt.

Definition handle_func_call (ws : nat) (func_call : json) : M unit :=
  fname <- lift (py_getitem func_call "name") ;;
  if is_str "update_shopping_list" fname then
    _handle_shopping_list_update func_call ws ;;
    call_id <- lift (py_get func_call "id" JNull) ;;
    _send_function_response call_id success
  else ret tt.

Definition _handle_gemini_message (data : json) (ws : nat) : M unit :=
  setup <- lift (py_get data "setupComplete" JNull) ;;
  if truthy setup then
    send_json ws (Status "listening" "Gemini Live API ready")
  else
    has_content <- lift (py_contains "serverContent" data) ;;
    (if has_content : bool then
       content <- lift (py_getitem data "serverContent") ;;
       has_parts <- lift (py_contains "parts" content) ;;
       if has_parts : bool then
         parts <- lift (py_getitem content "parts") ;;
         elems <- lift (py_iter parts) ;;
         for_each elems (handle_part ws)
       else ret tt
     else ret tt) ;;
    has_call <- lift (py_contains "toolCall" data) ;;
    if has_call : bool then
      tool_call <- lift (py_getitem data "toolCall") ;;
      has_calls <- lift (py_contains "functionCalls" tool_call) ;;
      if has_calls : bool then
        calls <- lift (py_getitem tool_call "functionCalls") ;;
        elems <- lift (py_iter calls) ;;
        for_each elems (handle_func_call ws)
      else ret tt
    else ret tt.

(** A frame of the upstream connection, as [json.loads] sees it. *)
Inductive frame : Type :=
| Unparseable
| Payload (data : json).

Definition json_loads (f : frame) : res json :=
  match f with
  | Unparseable => Raise JSONDecodeError
  | Payload data => Ok data
  end.

(** How the iteration over the upstream connection ends once the frames
    are consumed: no further frame arrives, the iterator is exhausted, or
    the iteration raises. *)
Inductive stream_end : Type :=
| StillOpen
| Exhausted
| Raises (e : exn).

(** The body of [async for message in self.websocket]. *)
Definition on_message (ws : nat) (message : frame) : M unit :=
  modify (set_gemini_service g_count) ;;
  try_except
    (data <- lift (json_loads message) ;;
     _handle_gemini_message data ws)
    (fun _ => ret tt).

Fixpoint receive_loop (ws : nat) (frames : list frame) (fin : stream_end)
    : M unit :=
  match frames with
  | [] =>
      match fin with
      | StillOpen => blocked
      | Exhausted => ret tt
      | Raises e => raise e
      end
  | message :: rest => on_message ws message ;; receive_loop ws rest fin
  end.

(** [listen_for_responses]: [frames] and [fin] are what the upstream
    connection delivers. *)
Definition listen_for_responses (ws : nat) (frames : list frame)
    (fin : stream_end) : M unit :=
  try_except
    (st <- get_state ;;
     if bool_decide (is_Some (websocket (gemini_service st)))
     then receive_loop ws frames fin
     else raise TypeError)
    (fun _ => modify (set_gemini_service (g_set_is_connected false))).

(** ** The client endpoint *)

Definition empty_list_state (t : nat) : ShoppingListState :=
  {| items := []; conversation_context := ""; last_update := t;
     confidence := default_confidence |}.

(** [UserSession(user_id)]: the new object and its reference. *)
Definition new_UserSession (uid : string) : M nat :=
  t1 <- datetime_now ;;
  t2 <- datetime_now ;;
  t3 <- datetime_now ;;
  st <- get_state ;;
  let ref := fresh (dom (sessions st)) in
  modify (set_sessions <[ref :=
    {| user_id := uid; us_websocket := None; us_gemini_service := None;
       us_is_connected := false; created_at := t1; last_activity := t2;
       shopping_list_state := empty_list_state t3 |}]>) ;;
  ret ref.

Definition s_set_websocket (ws : nat) (s : UserSession) : UserSession :=
  {| user_id := user_id s; us_websocket := Some ws;
     us_gemini_service := us_gemini_service s;
     us_is_connected := us_is_connected s; created_at := created_at s;
     last_activity := last_activity s;
     shopping_list_state := shopping_list_state s |}.

Definition s_set_is_connected (b : bool) (s : UserSession) : UserSession :=
  {| user_id := user_id s; us_websocket := us_websocket s;
     us_gemini_service := us_gemini_service s;
     us_is_connected := b; created_at := created_at s;
     last_activity := last_activity s;
     shopping_list_state := shopping_list_state s |}.

Definition s_set_last_activity (t : nat) (s : UserSession) : UserSession :=
  {| user_id := user_id s; us_websocket := us_websocket s;
     us_gemini_service := us_gemini_service s;
     us_is_connected := us_is_connected s; created_at := created_at s;
     last_activity := t;
     shopping_list_state := shopping_list_state s |}.

(** The start of [websocket_endpoint]: accept the connection, build the
    session and enter it in [active_sessions]. *)
Definition create_session (ws : nat) (uid : string) : M nat :=
  accept ws ;;
  session <- new_UserSession uid ;;
  modify (set_sessions (alter (s_set_websocket ws) session)) ;;
  modify (set_sessions (alter (s_set_is_connected true) session)) ;;
  modify (set_active_sessions <[uid := session]>) ;;
  ret session.

Inductive ctl : Type := Continue | Break.

Definition test_item : res ShoppingListItem :=
  new_ShoppingListItem (JStr "mleko") (JNum (1 # 1)) JNull (JStr "Nabiał").

(** [data.get("timestamp", t)], the value kept apart from the default. *)
Definition get_timestamp (data : json) (t : nat) : res (json + nat) :=
  match data with
  | JDict d =>
      Ok (match assoc "timestamp" d with Some v => inl v | None => inr t end)
  | _ => Raise AttributeError
  end.

(** The body of the command loop after [receive_json]. *)
Definition on_command (ws : nat) (uid : string) (session : nat)
    (data : json) : M ctl :=
  message_type <- lift (py_get data "type" JNull) ;;
  now <- datetime_now ;;
  modify (set_sessions (alter (s_set_last_activity now) session)) ;;
  if is_str "audio_chunk" message_type then
    audio_data <- lift (py_get data "audio_data" JNull) ;;
    t <- datetime_now ;;
    timestamp <- lift (get_timestamp data t) ;;
    if truthy audio_data then
      _ <- lift (py_len audio_data) ;;
      send_audio_chunk audio_data ;;
      n <- lift (py_len audio_data) ;;
      send_json ws (AudioReceived timestamp n) ;;
      ret Continue
    else ret Continue
  else if is_str "start_session" message_type then
    send_json ws (SessionStarted uid "Session started successfully") ;;
    ret Continue
  else if is_str "stop_session" message_type then
    send_json ws (SessionStopped "Session stopped") ;;
    ret Break
  else if is_str "ping" message_type then
    t <- datetime_now ;;
    send_json ws (Pong t) ;;
    ret Continue
  else if is_str "test_audio" message_type then
    test_text <- lift (py_get data "text" (JStr "Dodaj mleko do listy")) ;;
    item <- lift test_item ;;
    t <- datetime_now ;;
    test_shopping_list <-
      lift (new_ShoppingListState [item] t (JNum (95 # 100))) ;;
    send_json ws (Transcript test_text true) ;;
    send_json ws (ShoppingListUpdated test_shopping_list) ;;
    ret Continue
  else ret Continue.

(** One turn of [while True]. *)
Definition iteration (ws : nat) (uid : string) (session : nat) (r : recv)
    : M ctl :=
  try_except
    (data <- receive_json r ;;
     on_command ws uid session data)
    (fun e =>
     match e with
     | WebSocketDisconnect => ret Break
     | _ => send_json ws (Error (StrOf e)) ;; ret Continue
     end).

(** The command loop over what the client sends; with nothing left to
    receive the loop waits. *)
Fixpoint command_loop (ws : nat) (uid : string) (session : nat)
    (inbox : list recv) : M unit :=
  match inbox with
  | [] => blocked
  | r :: rest =>
      c <- iteration ws uid session r ;;
      match c with
      | Break => ret tt
      | Continue => command_loop ws uid session rest
      end
  end.

Definition cleanup (uid : string) : M unit :=
  disconnect ;;
  st <- get_state ;;
  if bool_decide (is_Some (active_sessions st !! uid))
  then modify (set_active_sessions (delete uid))
  else ret tt.

(** The [try ... except Exception] block of [websocket_endpoint]. *)
Definition serve (ws : nat) (uid : string) (session : nat)
    (dial : res Upstream) (inbox : list recv) : M unit :=
  try_except
    (ok <- connect dial ;;
     if ok : bool then
       modify (set_gemini_task Scheduled) ;;
       command_loop ws uid session inbox ;;
       modify (set_gemini_task Cancelled)
     else
       send_json ws
         (Error (Literal "Failed to connect to Gemini Live API")))
    (fun e => send_json ws (Error (ServiceError e))).

Definition websocket_endpoint (ws : nat) (uid : string)
    (dial : res Upstream) (inbox : list recv) : M unit :=
  session <- create_session ws uid ;;
  modify (set_gemini_service (fun _ => new_GeminiLiveService)) ;;
  modify (set_gemini_task NoTask) ;;
  try_finally (serve ws uid session dial inbox) (cleanup uid).

(** [DELETE /sessions/{user_id}] *)
Definition terminate_session (uid : string) : M unit :=
  st <- get_state ;;
  match active_sessions st !! uid with
  | Some ref =>
      match sessions st !! ref with
      | Some session =>
          match us_websocket session with
          | Some ws => ws_close ws
          | None => ret tt
          end ;;
          modify (set_active_sessions (delete uid))
      | None => raise RuntimeError
      end
  | None => raise (HTTPException 404)
  end.

(** [GET /sessions]: the views of the entered sessions. *)
Definition list_sessions (st : State) : list UserSessionData :=
  omap (fun kv => to_data <$> sessions st !! snd kv)
       (map_to_list (active_sessions st)).

End Handlers.

(** ** The local runner (backend/run_local.py) *)

(** The defaults of [setup_environment], in the order of the dict. *)
Definition defaults : list (string * string) :=
  [("HOST", "0.0.0.0");
   ("PORT", "8000");
   ("DEBUG", "true");
   ("CORS_ORIGINS",
    "http://localhost:3000,http://localhost:8081,http://localhost:19006");
   ("WEBSOCKET_PING_INTERVAL", "30")].

(** [for key, value in l: if key not in os.environ: os.environ[key] = value] *)
Fixpoint set_defaults (l : list (string * string))
    (environ : gmap string string) : gmap string string :=
  match l with
  | [] => environ
  | (key, value) :: l' =>
      set_defaults l'
        (if bool_decide (is_Some (environ !! key)) then environ
         else <[key := value]> environ)
  end.

(** [not os.environ.get("GEMINI_API_KEY")] *)
Definition no_api_key (environ : gmap string string) : bool :=
  match environ !! "GEMINI_API_KEY" with
  | Some v => String.eqb v ""
  | None => true
  end.

(** [setup_environment]: [api_key] is the stripped line the user types
    when asked; [None] is [sys.exit(1)]. *)
Definition setup_environment (api_key : string) (environ : gmap string string)
    : option (gmap string string) :=
  let environ := set_defaults defaults environ in
  if no_api_key environ then
    if negb (String.eqb api_key "")
    then Some (<["GEMINI_API_KEY" := api_key]> environ)
    else None
  else Some environ.

(** * Observations, invariants and inputs of the properties *)

Local Open Scope list_scope.

(** The client end of [ws] is accepted, open and reachable. *)
Definition ready (st : State) (ws : nat) : Prop :=
  exists w, sockets st !! ws = Some w /\ ws_fault w = None
            /\ ws_state w = Connected.

(** Everything written to the client of [ws] so far. *)
Definition client_sent (st : State) (ws : nat) : list client_msg :=
  from_option ws_sent [] (sockets st !! ws).

(** Everything written to the upstream API so far. *)
Definition upstream_sent (st : State) : list upstream_msg :=
  from_option up_sent [] (websocket (gemini_service st)).

(** The state after a successful [send_json]. *)
Definition deliver (ws : nat) (m : client_msg) (st : State) : State :=
  set_sockets (alter (ws_push m) ws) st.

(** The service after a send that is skipped when the link is down and
    whose failure is only logged. *)
Definition best_effort (m : upstream_msg) (g : GeminiLiveService)
    : GeminiLiveService :=
  if not_connected g then g
  else match websocket g with
       | Some u =>
           match up_send_fault u with
           | Some _ => g
           | None =>
               if up_closed u then g
               else g_set_websocket (Some (up_push m u)) g
           end
       | None => g
       end.

(** The session table after the activity stamp of one received command. *)
Definition stamped (session : nat) (st : State) : State :=
  set_sessions (alter (s_set_last_activity (clock st)) session)
    (set_clock S st).

(** The reply the loop gives to an [audio_chunk] command. *)
Definition audio_reply (d : list (string * json)) (p : string) (st : State)
    : client_msg :=
  AudioReceived
    (match assoc "timestamp" d with
     | Some v => inl v
     | None => inr (S (clock st))
     end)
    (String.length p).

(** The state after an [audio_chunk] command with payload [p]. *)
Definition after_audio (ws session : nat) (d : list (string * json))
    (p : string) (st : State) : State :=
  if String.eqb p "" then set_clock S (stamped session st)
  else deliver ws (audio_reply d p st)
         (set_gemini_service (best_effort (RealtimeInput (JStr p)))
            (set_clock S (stamped session st))).

(** An [audio_chunk] command with payload [p] and client timestamp [ts]. *)
Definition audio_fields (c : string * json) : list (string * json) :=
  [("type", JStr "audio_chunk"); ("audio_data", JStr c.1);
   ("timestamp", c.2)].

Definition audio_chunk (c : string * json) : json := JDict (audio_fields c).

Definition audio_received (c : string * json) : client_msg :=
  AudioReceived (inl c.2) (String.length c.1).

(** What a step of the pump may change: not the sessions, not the table,
    not the task handle; a ready client transport stays ready. *)
Definition pump_frame (st st' : State) : Prop :=
  sessions st' = sessions st
  /\ active_sessions st' = active_sessions st
  /\ gemini_task st' = gemini_task st
  /\ forall ws, ready st ws -> ready st' ws.

Definition steady {A} (m : M A) : Prop :=
  forall st, fst (m st) <> Blocked /\ pump_frame st (snd (m st)).

(** [{"serverContent": {"parts": [{"text": t}]}}] *)
Definition text_frame (t : string) : frame :=
  Payload (JDict [("serverContent",
    JDict [("parts", JList [JDict [("text", JStr t)]])])]).

(** [{"toolCall": {"functionCalls": calls}}] *)
Definition tool_call_frame (calls : list json) : frame :=
  Payload (JDict [("toolCall", JDict [("functionCalls", JList calls)])]).

(** The state the handler builds from parsed items. *)
Definition list_state (its : list ShoppingListItem) (t : nat) (c : Q)
    : ShoppingListState :=
  {| items := its; conversation_context := ""; last_update := t;
     confidence := c |}.

Definition ack (d : list (string * json)) : upstream_msg :=
  ToolResponse "update_shopping_list" (default JNull (assoc "id" d)) success.

(** The fields of an item are of the JSON type the model declares, the
    quantity a number the [float] field returns unchanged. *)
Definition well_typed_item (di : list (string * json)) : Prop :=
  (forall v, assoc "name" di = Some v -> exists s, v = JStr s)
  /\ (forall v, assoc "quantity" di = Some v ->
      exists q, v = JNum q /\ float_safe q = true)
  /\ (forall v, assoc "unit" di = Some v -> v = JNull \/ exists s, v = JStr s)
  /\ (forall v, assoc "category" di = Some v -> exists s, v = JStr s).

(** The item carries the given fields, and for a missing field the
    default of the handler. *)
Definition defaults_applied (di : list (string * json))
    (it : ShoppingListItem) : Prop :=
  (assoc "name" di = None -> name it = "unknown")
  /\ (assoc "quantity" di = None -> quantity it = 1 # 1)
  /\ (assoc "category" di = None -> category it = default_category)
  /\ (assoc "unit" di = None -> unit_ it = None)
  /\ (forall s, assoc "name" di = Some (JStr s) -> name it = s)
  /\ (forall q, assoc "quantity" di = Some (JNum q) -> quantity it = q)
  /\ (forall s, assoc "category" di = Some (JStr s) -> category it = s)
  /\ (forall s, assoc "unit" di = Some (JStr s) -> unit_ it = Some s).

(** [{"toolCall": {"functionCalls": [{"name": "update_shopping_list",
    "id": call_id, "args": {"items": elems}}]}}] *)
Definition extraction_frame (call_id : json) (elems : list json) : frame :=
  tool_call_frame
    [JDict [("name", JStr "update_shopping_list"); ("id", call_id);
            ("args", JDict [("items", JList elems)])]].

(** The state after [create_session ws uid] for a connecting socket [w]. *)
Definition created (ws : nat) (uid : string) (w : WebSocket) (st : State)
    : State :=
  let ref := fresh (dom (sessions st)) in
  set_active_sessions <[uid := ref]>
    (set_sessions
       (fun m =>
          alter (s_set_is_connected true) ref
            (alter (s_set_websocket ws) ref
               (<[ref :=
                   {| user_id := uid; us_websocket := None;
                      us_gemini_service := None; us_is_connected := false;
                      created_at := clock st; last_activity := S (clock st);
                      shopping_list_state :=
                        empty_list_state (S (S (clock st))) |}]> m)))
       (set_clock (fun t => S (S (S t)))
          (set_sockets <[ws := ws_set_state Connected w]> st))).

(** How closing the upstream connection of the state will go: [None]
    without a connection, [Some None] when the close succeeds,
    [Some (Some e)] when it raises [e]. *)
Definition close_fault (st : State) : option (option exn) :=
  up_close_fault <$> websocket (gemini_service st).

Definition keeps {A} (I : State -> Prop) (m : M A) : Prop :=
  forall st, I st -> I (snd (m st)).

(** What the command loop leaves as it is, whether or not the client can
    still be reached: the way the upstream close will go and the table
    entry of the connection. *)
Definition held (v : option (option exn)) (uid : string) (ref : nat)
    (st : State) : Prop :=
  close_fault st = v /\ active_sessions st !! uid = Some ref.

Definition connecting_socket : WebSocket :=
  {| ws_state := Connecting; ws_fault := None; ws_sent := [] |}.

Definition fresh_upstream : Upstream :=
  {| up_sent := []; up_closed := false; up_send_fault := None;
     up_close_fault := None |}.

(** An upstream connection whose close raises. *)
Definition stuck_upstream : Upstream :=
  {| up_sent := []; up_closed := false; up_send_fault := None;
     up_close_fault := Some OSError |}.

(** The process with two clients about to be accepted. *)
Definition boot : State :=
  {| active_sessions := ∅; sessions := ∅;
     sockets := {[0 := connecting_socket; 1 := connecting_socket]};
     clock := 0; gemini_service := new_GeminiLiveService;
     gemini_task := NoTask |}.

(** Client 0 accepted as "user", connected upstream, pump scheduled. *)
Definition active : State :=
  snd ((create_session 0 "user" ;;
        connect (Ok fresh_upstream) ;;
        modify (set_gemini_task Scheduled)) boot).

(** Client 0 accepted as "user" while the upstream cannot be reached. *)
Definition offline : State :=
  snd ((create_session 0 "user" ;; connect (Raise OSError)) boot).

Definition first_call_items : list json :=
  [JDict [("name", JStr "milk"); ("quantity", JNum (1 # 1))]].

Definition second_call_items : list json :=
  [JDict [("name", JStr "milk"); ("quantity", JNum (2 # 1))];
   JDict [("name", JStr "onion"); ("quantity", JNum (1 # 1))]].

Definition first_list : list ShoppingListItem :=
  [{| name := "milk"; quantity := 1 # 1; unit_ := None;
      category := default_category |}].

Definition second_list : list ShoppingListItem :=
  [{| name := "milk"; quantity := 2 # 1; unit_ := None;
      category := default_category |};
   {| name := "onion"; quantity := 1 # 1; unit_ := None;
      category := default_category |}].

Definition other_call : list (string * json) :=
  [("name", JStr "other_function"); ("id", JStr "call-1");
   ("args", JDict [])].

Definition stop_session : recv := Recv (JDict [("type", JStr "stop_session")]).

Definition first_call : list (string * json) :=
  [("name", JStr "update_shopping_list"); ("id", JStr "call-1");
   ("args", JDict [("items", JList first_call_items)])].

Definition three_chunks : list (string * json) :=
  [("abc", JNum (1 # 1)); ("", JNum (2 # 1)); ("de", JNum (3 # 1))].

(** ** Frames of the loops *)

(** Every step of a computation is within the relation [R]. *)
Definition follows {A} (R : State -> State -> Prop) (m : M A) : Prop :=
  forall st, R st (snd (m st)).

(** Two states of a session object that differ at most in [last_activity]. *)
Definition same_but_activity (s s' : UserSession) : Prop :=
  user_id s' = user_id s
  /\ us_websocket s' = us_websocket s
  /\ us_gemini_service s' = us_gemini_service s
  /\ us_is_connected s' = us_is_connected s
  /\ created_at s' = created_at s
  /\ shopping_list_state s' = shopping_list_state s.

(** What the command loop of the client [ws] may change: not the table,
    not the task handle, no other client socket, and of the session
    objects only [last_activity]. *)
Definition loop_frame (ws : nat) (st st' : State) : Prop :=
  active_sessions st' = active_sessions st
  /\ gemini_task st' = gemini_task st
  /\ (forall ws', ws' <> ws -> sockets st' !! ws' = sockets st !! ws')
  /\ forall ref,
       match sessions st !! ref, sessions st' !! ref with
       | Some s, Some s' => same_but_activity s s'
       | None, None => True
       | _, _ => False
       end.

(** What the handling of one upstream message for the client [ws] may
    change: not the sessions, not the table, not the task handle, no other
    client socket, not the message counter. *)
Definition handler_frame (ws : nat) (st st' : State) : Prop :=
  sessions st' = sessions st
  /\ active_sessions st' = active_sessions st
  /\ gemini_task st' = gemini_task st
  /\ (forall ws', ws' <> ws -> sockets st' !! ws' = sockets st !! ws')
  /\ message_count (gemini_service st') = message_count (gemini_service st).

(** The session object and the client socket of "user" in [active]. *)
Definition user_session : UserSession :=
  {| user_id := "user"; us_websocket := Some 0; us_gemini_service := None;
     us_is_connected := true; created_at := 0; last_activity := 1;
     shopping_list_state := empty_list_state 2 |}.

Definition connected_socket : WebSocket :=
  {| ws_state := Connected; ws_fault := None; ws_sent := [] |}.

(** [active] after the client of "user" has gone away. *)
Definition gone : State :=
  set_sockets
    <[0 := {| ws_state := Connected; ws_fault := Some OSError;
              ws_sent := [] |}]> active.

(** Client 0 accepted as "user" and gone before the upstream connection
    is made: the state at the [try] of [websocket_endpoint]. *)
Definition vanished : State :=
  set_sockets
    <[0 := {| ws_state := Connected; ws_fault := Some OSError;
              ws_sent := [] |}]>
    (snd ((create_session 0 "user" ;;
           modify (set_gemini_service (fun _ => new_GeminiLiveService)) ;;
           modify (set_gemini_task NoTask)) boot)).

Definition ping : recv := Recv (JDict [("type", JStr "ping")]).

(** An environment in which only the port is set. *)
Definition port_only : gmap string string := {["PORT" := "9000"]}.

(** The messages sent to the client [ws] are kept and more may follow. *)
Definition sent_grows (ws : nat) (st st' : State) : Prop :=
  exists l, client_sent st' ws = client_sent st ws ++ l.

(** * Properties *)

(** ** Observations and the effect of the transport operations *)

Lemma bind_ok {A B} (m : M A) (k : A -> M B) st a st' :
  m st = (Ok a, st') -> bind m k st = k a st'.
Proof. intros H. unfold bind. now rewrite H. Qed.

Lemma ready_deliver ws m st ws' : ready st ws' -> ready (deliver ws m st) ws'.
Proof.
  intros (w & Hw & Hf & Hs). unfold ready, deliver; simpl.
  destruct (decide (ws = ws')) as [->|Hne].
  - exists (ws_push m w). rewrite lookup_alter_eq, Hw. now simpl.
  - exists w. now rewrite lookup_alter_ne.
Qed.

Lemma client_sent_deliver ws m st :
  ready st ws -> client_sent (deliver ws m st) ws = client_sent st ws ++ [m].
Proof.
  intros (w & Hw & _). unfold client_sent, deliver; simpl.
  now rewrite lookup_alter_eq, Hw.
Qed.

Lemma send_json_ready ws m st :
  ready st ws -> send_json ws m st = (Ok tt, deliver ws m st).
Proof.
  intros (w & Hw & Hf & Hs). unfold send_json, deliver.
  rewrite Hw, Hf, Hs. f_equal. unfold set_sockets. f_equal.
  apply map_eq. intros i. destruct (decide (ws = i)) as [->|Hne].
  - now rewrite lookup_insert_eq, lookup_alter_eq, Hw.
  - now rewrite lookup_insert_ne, lookup_alter_ne.
Qed.

Lemma up_send_best_effort m st :
  not_connected (gemini_service st) = false ->
  exists r, (r = Ok tt \/ exists e, r = Raise e) /\
    up_send m st = (r, set_gemini_service (best_effort m) st).
Proof.
  intros Hc. destruct st as [a s k c g t]; simpl in *.
  unfold up_send, set_gemini_service, best_effort; simpl. rewrite Hc.
  destruct g as [[u|] ic mc]; simpl.
  - destruct (up_send_fault u) as [e|].
    + exists (Raise e). split; [right; eauto | reflexivity].
    + destruct (up_closed u).
      * exists (Raise ConnectionClosed). split; [right; eauto | reflexivity].
      * exists (Ok tt). split; [now left | reflexivity].
  - exists (Raise AttributeError). split; [right; eauto | reflexivity].
Qed.

Lemma send_audio_chunk_spec audio_data st :
  send_audio_chunk audio_data st =
  (Ok tt, set_gemini_service (best_effort (RealtimeInput audio_data)) st).
Proof.
  unfold send_audio_chunk, bind at 1, get_state.
  destruct (not_connected (gemini_service st)) eqn:Hc.
  - unfold ret. f_equal. destruct st as [a s k c g t]; simpl in *.
    unfold set_gemini_service, best_effort; simpl. now rewrite Hc.
  - destruct (up_send_best_effort (RealtimeInput audio_data) st Hc)
      as (r & [->|[e ->]] & Hr);
      unfold try_except, bind; rewrite Hr; [|reflexivity].
    unfold lift, ret. now destruct audio_data.
Qed.

Lemma _send_function_response_spec call_id result st :
  _send_function_response call_id result st =
  (Ok tt, set_gemini_service
            (best_effort (ToolResponse "update_shopping_list" call_id result))
            st).
Proof.
  unfold _send_function_response, bind at 1, get_state.
  destruct (not_connected (gemini_service st)) eqn:Hc.
  - unfold ret. f_equal. destruct st as [a s k c g t]; simpl in *.
    unfold set_gemini_service, best_effort; simpl. now rewrite Hc.
  - destruct (up_send_best_effort
                (ToolResponse "update_shopping_list" call_id result) st Hc)
      as (r & [->|[e ->]] & Hr);
      unfold try_except; rewrite Hr; reflexivity.
Qed.

Arguments send_json : simpl never.
Arguments send_audio_chunk : simpl never.
Arguments _send_function_response : simpl never.

(** Evaluate a computation up to the next transport operation. *)
Ltac run_m :=
  repeat (progress (unfold bind, lift, modify, ret, raise, try_except,
                      get_state, datetime_now; cbn)).

(** ** The command loop *)

Section CommandLoop.
Context {P : Pydantic}.
Variables (ws : nat) (uid : string) (session : nat).

(** C9: a [ping] received while the client transport is ready is answered
    with exactly one [pong]; in the session object only [last_activity]
    is written, so the shopping list state and every other field keep
    their values, and no other session, table entry or upstream state
    changes. *)
Theorem ping_replies_pong_and_only_stamps (d : list (string * json)) st :
  ready st ws ->
  assoc "type" d = Some (JStr "ping") ->
  exists st',
    iteration ws uid session (Recv (JDict d)) st = (Ok Continue, st')
    /\ client_sent st' ws = client_sent st ws ++ [Pong (S (clock st))]
    /\ sessions st'
       = alter (s_set_last_activity (clock st)) session (sessions st)
    /\ (forall s, sessions st !! session = Some s ->
        exists s', sessions st' !! session = Some s'
          /\ shopping_list_state s' = shopping_list_state s
          /\ user_id s' = user_id s
          /\ us_websocket s' = us_websocket s
          /\ us_gemini_service s' = us_gemini_service s
          /\ us_is_connected s' = us_is_connected s
          /\ created_at s' = created_at s
          /\ last_activity s' = clock st)
    /\ active_sessions st' = active_sessions st
    /\ gemini_service st' = gemini_service st
    /\ gemini_task st' = gemini_task st.
Proof.
  intros Hr Hd.
  exists (deliver ws (Pong (S (clock st)))
            (set_clock S (stamped session st))).
  split.
  - unfold iteration, try_except, bind, receive_json, ret, on_command, bind,
      lift, py_get, datetime_now, modify.
    rewrite Hd. simpl.
    rewrite send_json_ready by exact Hr. reflexivity.
  - split; [now rewrite client_sent_deliver by exact Hr|].
    split; [reflexivity|].
    split; [|now repeat split].
    intros s Hs. exists (s_set_last_activity (clock st) s). simpl.
    rewrite lookup_alter_eq, Hs. now repeat split.
Qed.

Lemma audio_chunk_step (d : list (string * json)) (p : string) st :
  ready st ws ->
  assoc "type" d = Some (JStr "audio_chunk") ->
  assoc "audio_data" d = Some (JStr p) ->
  iteration ws uid session (Recv (JDict d)) st
  = (Ok Continue, after_audio ws session d p st).
Proof.
  intros Hr Ht Ha.
  unfold iteration, try_except, bind at 1, receive_json, ret, on_command.
  unfold bind at 1, lift, py_get. rewrite Ht. simpl.
  unfold bind at 1, datetime_now. unfold bind at 1, modify.
  unfold bind at 1. rewrite Ha. simpl.
  unfold bind at 1. unfold bind at 1, get_timestamp. unfold after_audio.
  destruct (String.eqb p "") eqn:Hp; simpl; [reflexivity|].
  unfold bind at 1. unfold bind at 1. rewrite send_audio_chunk_spec.
  unfold bind at 1. unfold bind at 1.
  rewrite send_json_ready by exact Hr. reflexivity.
Qed.

Lemma ready_after_audio d p st :
  ready st ws -> ready (after_audio ws session d p st) ws.
Proof.
  intros Hr. unfold after_audio. destruct (String.eqb p ""); [exact Hr|].
  apply ready_deliver. exact Hr.
Qed.

Lemma client_sent_after_audio d p st :
  ready st ws ->
  client_sent (after_audio ws session d p st) ws
  = client_sent st ws ++ (if String.eqb p "" then [] else [audio_reply d p st]).
Proof.
  intros Hr. unfold after_audio. destruct (String.eqb p "").
  - now rewrite app_nil_r.
  - now rewrite client_sent_deliver by exact Hr.
Qed.

(** C10: an [audio_chunk] with a non-empty payload that arrives while the
    upstream link is down is still acknowledged to the client with the
    full payload length, and nothing is forwarded upstream. *)
Theorem audio_acknowledged_while_upstream_down
    (d : list (string * json)) (p : string) st :
  ready st ws ->
  not_connected (gemini_service st) = true ->
  assoc "type" d = Some (JStr "audio_chunk") ->
  assoc "audio_data" d = Some (JStr p) ->
  p <> "" ->
  exists st',
    iteration ws uid session (Recv (JDict d)) st = (Ok Continue, st')
    /\ client_sent st' ws = client_sent st ws ++ [audio_reply d p st]
    /\ gemini_service st' = gemini_service st
    /\ upstream_sent st' = upstream_sent st.
Proof.
  intros Hr Hn Ht Ha Hp. exists (after_audio ws session d p st).
  split; [now apply audio_chunk_step|].
  apply String.eqb_neq in Hp.
  split; [rewrite client_sent_after_audio by exact Hr; now rewrite Hp|].
  assert (gemini_service (after_audio ws session d p st) = gemini_service st)
    as Hg.
  { unfold after_audio. rewrite Hp. simpl. unfold best_effort. now rewrite Hn. }
  split; [exact Hg|]. unfold upstream_sent. now rewrite Hg.
Qed.

(** C5, as the code has it: of a sequence of [audio_chunk] commands
    received while the client transport is ready, each command with a
    non-empty payload is answered with exactly one [audio_received] whose
    [chunk_size] is the payload length, the answers are in the order of
    the commands, and a command with an empty payload is not answered;
    the loop then waits for the next command. *)
Theorem audio_replies_in_order (cmds : list (string * json)) st :
  ready st ws ->
  exists st',
    command_loop ws uid session (map (fun c => Recv (audio_chunk c)) cmds) st
    = (Blocked, st')
    /\ ready st' ws
    /\ client_sent st' ws
       = client_sent st ws
         ++ map audio_received (filter (fun c => c.1 <> "") cmds).
Proof.
  revert st. induction cmds as [|[p ts] cmds IH]; intros st Hr.
  - exists st. simpl. rewrite app_nil_r. now repeat split.
  - destruct (IH (after_audio ws session (audio_fields (p, ts)) p st))
      as (st' & Hrun & Hr' & Hsent).
    { now apply ready_after_audio. }
    exists st'. split; [|split; [exact Hr'|]].
    + cbn [map command_loop]. unfold bind at 1, audio_chunk.
      rewrite (audio_chunk_step _ p) by (exact Hr || reflexivity).
      exact Hrun.
    + rewrite Hsent, client_sent_after_audio by exact Hr.
      rewrite <- app_assoc. f_equal. rewrite filter_cons. simpl.
      destruct (String.eqb_spec p "") as [->|Hne].
      * now rewrite decide_False by (intros H; now apply H).
      * now rewrite decide_True by exact Hne.
Qed.

End CommandLoop.

(** ** The upstream pump never blocks between frames and leaves the
       session table alone *)

Lemma pump_frame_refl st : pump_frame st st.
Proof. now repeat split. Qed.

Lemma pump_frame_trans st1 st2 st3 :
  pump_frame st1 st2 -> pump_frame st2 st3 -> pump_frame st1 st3.
Proof.
  intros (Hs & Ha & Ht & Hr) (Hs' & Ha' & Ht' & Hr').
  repeat split; try congruence. auto.
Qed.

Lemma steady_ret {A} (a : A) : steady (ret a).
Proof. intros st. split; [discriminate | apply pump_frame_refl]. Qed.

Lemma steady_raise {A} e : steady (@raise A e).
Proof. intros st. split; [discriminate | apply pump_frame_refl]. Qed.

Lemma steady_lift {A} (r : res A) : r <> Blocked -> steady (lift r).
Proof. intros H st. split; [exact H | apply pump_frame_refl]. Qed.

Lemma steady_bind {A B} (m : M A) (k : A -> M B) :
  steady m -> (forall a, steady (k a)) -> steady (bind m k).
Proof.
  intros Hm Hk st. unfold bind. destruct (Hm st) as [Hb Hf].
  destruct (m st) as [[a|e|] st1]; simpl in *.
  - destruct (Hk a st1) as [Hb' Hf']. split; [exact Hb'|].
    eapply pump_frame_trans; eassumption.
  - split; [discriminate | exact Hf].
  - now contradict Hb.
Qed.

Lemma steady_try_except {A} (m : M A) (h : exn -> M A) :
  steady m -> (forall e, steady (h e)) -> steady (try_except m h).
Proof.
  intros Hm Hh st. unfold try_except. destruct (Hm st) as [Hb Hf].
  destruct (m st) as [[a|e|] st1]; simpl in *.
  - split; [discriminate | exact Hf].
  - destruct (Hh e st1) as [Hb' Hf']. split; [exact Hb'|].
    eapply pump_frame_trans; eassumption.
  - now contradict Hb.
Qed.

Lemma steady_for_each {A} (l : list A) (body : A -> M unit) :
  (forall x, steady (body x)) -> steady (for_each l body).
Proof.
  intros Hb. induction l as [|x l IH]; simpl.
  - apply steady_ret.
  - apply steady_bind; [apply Hb | intros _; exact IH].
Qed.

Lemma steady_send_json ws m : steady (send_json ws m).
Proof.
  intros st. unfold send_json.
  destruct (sockets st !! ws) as [w|] eqn:Hw;
    [|split; [discriminate | apply pump_frame_refl]].
  destruct (ws_fault w) eqn:Hf;
    [split; [discriminate | apply pump_frame_refl]|].
  destruct (ws_state w) eqn:Hs;
    try (split; [discriminate | apply pump_frame_refl]).
  split; [discriminate|]. simpl. repeat split.
  intros ws' (w' & Hw' & Hf' & Hs'). unfold ready; simpl.
  destruct (decide (ws = ws')) as [->|Hne].
  - exists (ws_push m w). now rewrite lookup_insert_eq.
  - exists w'. now rewrite lookup_insert_ne.
Qed.

Lemma steady_datetime_now : steady datetime_now.
Proof. intros st. split; [discriminate | now repeat split]. Qed.

Lemma steady_modify_gemini f : steady (modify (set_gemini_service f)).
Proof. intros st. split; [discriminate | now repeat split]. Qed.

Lemma steady__send_function_response call_id result :
  steady (_send_function_response call_id result).
Proof.
  intros st. rewrite _send_function_response_spec.
  split; [discriminate | now repeat split].
Qed.

Lemma py_get_total v k d : py_get v k d <> Blocked.
Proof. now destruct v. Qed.

Lemma py_contains_total k v : py_contains k v <> Blocked.
Proof. now destruct v. Qed.

Lemma py_getitem_total v k : py_getitem v k <> Blocked.
Proof. destruct v; try discriminate. simpl. now destruct (assoc k d). Qed.

Lemma py_iter_total v : py_iter v <> Blocked.
Proof. now destruct v. Qed.

Lemma json_loads_total f : json_loads f <> Blocked.
Proof. now destruct f. Qed.

Create HintDb steady.
#[local] Hint Resolve py_get_total py_contains_total py_getitem_total
  py_iter_total json_loads_total : steady.
#[local] Hint Resolve steady_send_json steady_datetime_now
  steady_modify_gemini steady__send_function_response : steady.

(** Decompose a computation along its binds, loops and branches. *)
Ltac steady_step :=
  first
    [ solve [eauto with steady]
    | apply steady_ret
    | apply steady_raise
    | apply steady_bind; [|intros ?]
    | apply steady_try_except; [|intros ?]
    | apply steady_for_each; intros ?
    | apply steady_lift
    | match goal with
      | |- steady (if ?b then _ else _) => destruct b
      | |- steady (match ?x with _ => _ end) => destruct x
      end ].
Ltac steady := repeat steady_step.

Section PumpFrame.
Context {P : Pydantic}.

Lemma new_ShoppingListItem_total n q u c :
  new_ShoppingListItem n q u c <> Blocked.
Proof.
  unfold new_ShoppingListItem.
  destruct (validate_str n), (validate_float q), (validate_opt_str u),
    (validate_str c); discriminate.
Qed.

Lemma item_of_total item_data : item_of item_data <> Blocked.
Proof.
  destruct item_data; try discriminate. unfold item_of, py_get.
  apply new_ShoppingListItem_total.
Qed.

Lemma items_of_total l : items_of l <> Blocked.
Proof.
  induction l as [|x l IH]; simpl; [discriminate|].
  pose proof (item_of_total x) as Hx.
  destruct (item_of x); try discriminate; [|contradiction].
  destruct (items_of l); try discriminate. contradiction.
Qed.

Lemma new_ShoppingListState_total its t c :
  new_ShoppingListState its t c <> Blocked.
Proof. unfold new_ShoppingListState. now destruct (validate_float c). Qed.

Lemma steady__handle_shopping_list_update func_call ws :
  steady (_handle_shopping_list_update func_call ws).
Proof.
  unfold _handle_shopping_list_update.
  pose proof items_of_total. pose proof new_ShoppingListState_total.
  steady.
Qed.

Lemma steady__handle_gemini_message data ws :
  steady (_handle_gemini_message data ws).
Proof.
  pose proof steady__handle_shopping_list_update.
  unfold _handle_gemini_message, handle_part, handle_func_call. steady.
Qed.

Lemma steady_on_message ws message : steady (on_message ws message).
Proof.
  pose proof steady__handle_gemini_message.
  unfold on_message. steady.
Qed.

End PumpFrame.

(** ** The upstream pump *)

Section Pump.
Context {P : Pydantic}.
Variable ws : nat.

Lemma on_message_returns message st :
  exists st', on_message ws message st = (Ok tt, st') /\ pump_frame st st'.
Proof.
  destruct (steady_on_message ws message st) as [Hb Hf].
  assert (forall e, fst (on_message ws message st) <> Raise e) as Hn.
  { intros e. unfold on_message, bind, modify, try_except.
    match goal with
    | |- context [let (_, _) := ?x in _] => destruct x as [[?|?|] ?]
    end;
      simpl; discriminate. }
  destruct (on_message ws message st) as [[[]|e|] st'] eqn:E; simpl in *.
  - now exists st'.
  - now destruct (Hn e).
  - now contradict Hb.
Qed.

(** The frames before the end of the stream are all consumed, whatever
    they hold. *)
Lemma receive_loop_consumes frames st :
  exists st',
    receive_loop ws frames Exhausted st = (Ok tt, st')
    /\ pump_frame st st'
    /\ forall post fin,
         receive_loop ws (frames ++ post) fin st = receive_loop ws post fin st'.
Proof.
  revert st. induction frames as [|f frames IH]; intros st.
  - exists st. split; [reflexivity|]. split; [apply pump_frame_refl|].
    reflexivity.
  - destruct (on_message_returns f st) as (st1 & H1 & Hf1).
    destruct (IH st1) as (st' & H' & Hf' & Hpost).
    exists st'. split; [|split].
    + cbn [receive_loop]. unfold bind. now rewrite H1.
    + eapply pump_frame_trans; eassumption.
    + intros post fin. cbn [app receive_loop]. unfold bind. rewrite H1.
      apply Hpost.
Qed.

Lemma on_message_unparseable st :
  on_message ws Unparseable st = (Ok tt, set_gemini_service g_count st).
Proof. reflexivity. Qed.

Lemma on_message_text t st :
  ready st ws ->
  on_message ws (text_frame t) st
  = (Ok tt, deliver ws (Transcript (JStr t) false)
              (set_gemini_service g_count st)).
Proof.
  intros Hr. unfold on_message, text_frame, _handle_gemini_message, handle_part.
  run_m. rewrite send_json_ready by exact Hr. reflexivity.
Qed.

(** The receive loop after a malformed frame: it goes on to the frames
    that follow, and a text frame among them is sent and counted. *)
Lemma receive_loop_survives_malformed
    (pre mid post : list frame) (t : string) (fin : stream_end) st :
  ready st ws ->
  exists st1 st2,
    receive_loop ws (pre ++ Unparseable :: mid) Exhausted st = (Ok tt, st1)
    /\ receive_loop ws (pre ++ Unparseable :: mid ++ text_frame t :: post)
         fin st
       = receive_loop ws post fin st2
    /\ client_sent st2 ws = client_sent st1 ws ++ [Transcript (JStr t) false]
    /\ message_count (gemini_service st2)
       = S (message_count (gemini_service st1))
    /\ ready st2 ws.
Proof.
  intros Hr.
  destruct (receive_loop_consumes (pre ++ Unparseable :: mid) st)
    as (st1 & H1 & Hf1 & Hpost).
  assert (ready st1 ws) as Hr1 by (now apply Hf1).
  exists st1, (deliver ws (Transcript (JStr t) false)
                 (set_gemini_service g_count st1)).
  split; [exact H1|]. split; [|split; [|split]].
  - replace (pre ++ Unparseable :: mid ++ text_frame t :: post)
      with ((pre ++ Unparseable :: mid) ++ text_frame t :: post)
      by (now rewrite <- app_assoc).
    rewrite Hpost. cbn [receive_loop]. unfold bind at 1.
    now rewrite on_message_text by exact Hr1.
  - now rewrite client_sent_deliver by exact Hr1.
  - reflexivity.
  - apply ready_deliver. exact Hr1.
Qed.

(** C7, as the code has it: when the iteration over the upstream
    connection raises [ConnectionClosed], the pump returns, the link is
    marked as not connected, and the state is otherwise the one the
    frames alone produced: nothing is sent to the client for the close. *)
Theorem upstream_close_ends_pump_silently (frames : list frame) st :
  is_Some (websocket (gemini_service st)) ->
  exists st1,
    receive_loop ws frames Exhausted st = (Ok tt, st1)
    /\ listen_for_responses ws frames (Raises ConnectionClosed) st
       = (Ok tt, set_gemini_service (g_set_is_connected false) st1)
    /\ client_sent (set_gemini_service (g_set_is_connected false) st1) ws
       = client_sent st1 ws
    /\ is_connected
         (gemini_service (set_gemini_service (g_set_is_connected false) st1))
       = false.
Proof.
  intros Hw.
  destruct (receive_loop_consumes frames st) as (st1 & H1 & _ & Hpost).
  exists st1. split; [exact H1|]. split; [|now split].
  unfold listen_for_responses, try_except, bind, get_state.
  rewrite bool_decide_eq_true_2 by exact Hw.
  specialize (Hpost [] (Raises ConnectionClosed)).
  rewrite app_nil_r in Hpost. rewrite Hpost. reflexivity.
Qed.

(** *** Tool calls *)

(** One [update_shopping_list] call whose arguments parse: the list goes to
    the client, then the call is acknowledged upstream if the link is up. *)
Lemma update_call_step (d a : list (string * json)) elems its c st :
  ready st ws ->
  assoc "name" d = Some (JStr "update_shopping_list") ->
  default (JDict []) (assoc "args" d) = JDict a ->
  py_iter (default (JList []) (assoc "items" a)) = Ok elems ->
  items_of elems = Ok its ->
  validate_float (default (JNum default_confidence) (assoc "confidence" a))
  = Some c ->
  on_message ws (tool_call_frame [JDict d]) st
  = (Ok tt,
     set_gemini_service (best_effort (ack d))
       (deliver ws (ShoppingListUpdated (list_state its (clock st) c))
          (set_clock S (set_gemini_service g_count st)))).
Proof.
  intros Hr Hname Hargs Hiter Hits Hconf.
  unfold on_message, tool_call_frame, _handle_gemini_message, handle_func_call.
  run_m. rewrite Hname. run_m.
  unfold _handle_shopping_list_update. run_m.
  rewrite Hargs. run_m. rewrite Hiter. run_m. rewrite Hits. run_m.
  unfold new_ShoppingListState. rewrite Hconf. run_m.
  rewrite send_json_ready by exact Hr. run_m.
  rewrite _send_function_response_spec. reflexivity.
Qed.

Lemma item_of_defaults di :
  well_typed_item di ->
  exists it, item_of (JDict di) = Ok it /\ defaults_applied di it.
Proof.
  intros (Hn & Hq & Hu & Hc). unfold item_of, py_get, new_ShoppingListItem.
  assert (exists n, validate_str (default (JStr "unknown") (assoc "name" di))
                    = Some n
                    /\ (assoc "name" di = None -> n = "unknown")
                    /\ (forall s, assoc "name" di = Some (JStr s) -> n = s))
    as (n & -> & Hn1 & Hn2).
  { destruct (assoc "name" di) as [v|]; simpl.
    - destruct (Hn v eq_refl) as [s ->]. exists s.
      rewrite validate_str_str. split; [easy|]. split; [easy|]. congruence.
    - exists "unknown". rewrite validate_str_str. now repeat split. }
  assert (exists q, validate_float
                      (default (JNum default_quantity) (assoc "quantity" di))
                    = Some q
                    /\ (assoc "quantity" di = None -> q = 1 # 1)
                    /\ (forall q', assoc "quantity" di = Some (JNum q')
                                    -> q = q'))
    as (q & -> & Hq1 & Hq2).
  { destruct (assoc "quantity" di) as [v|]; simpl.
    - destruct (Hq v eq_refl) as (q & -> & Hsafe). exists q.
      rewrite validate_float_num by exact Hsafe.
      split; [easy|]. split; [easy|]. congruence.
    - exists (1 # 1). rewrite validate_float_num by reflexivity.
      now repeat split. }
  assert (exists u, validate_opt_str (default JNull (assoc "unit" di)) = Some u
                    /\ (assoc "unit" di = None -> u = None)
                    /\ (forall s, assoc "unit" di = Some (JStr s)
                                   -> u = Some s))
    as (u & -> & Hu1 & Hu2).
  { destruct (assoc "unit" di) as [v|]; simpl.
    - destruct (Hu v eq_refl) as [->|[s ->]].
      + exists None. now repeat split.
      + exists (Some s). simpl. rewrite validate_str_str.
        split; [easy|]. split; [easy|]. congruence.
    - exists None. now repeat split. }
  assert (exists c, validate_str
                      (default (JStr default_category) (assoc "category" di))
                    = Some c
                    /\ (assoc "category" di = None -> c = default_category)
                    /\ (forall s, assoc "category" di = Some (JStr s) -> c = s))
    as (c & -> & Hc1 & Hc2).
  { destruct (assoc "category" di) as [v|]; simpl.
    - destruct (Hc v eq_refl) as [s ->]. exists s.
      rewrite validate_str_str. split; [easy|]. split; [easy|]. congruence.
    - exists default_category. rewrite validate_str_str. now repeat split. }
  eexists. split; [reflexivity|]. now repeat split.
Qed.

Lemma items_of_defaults dis :
  Forall well_typed_item dis ->
  exists its, items_of (map JDict dis) = Ok its
              /\ Forall2 defaults_applied dis its.
Proof.
  induction 1 as [|di dis Hdi _ (its & Hits & Hall)]; simpl.
  - exists []. now split.
  - destruct (item_of_defaults di Hdi) as (it & -> & Hit).
    rewrite Hits. exists (it :: its). split; [reflexivity|].
    now constructor.
Qed.

(** C3, as the code has it: an [update_shopping_list] call whose items are
    well typed, with quantities and confidence that the [float] fields
    return unchanged, is translated to one [shopping_list_updated]
    message.  Each item carries the given fields; a missing name becomes
    "unknown", a missing quantity 1 and a missing category "Ogólne"
    ([default_category]).  The state carries the given confidence, or 0.8
    when there is none. *)
Theorem extraction_call_applies_defaults
    (d a : list (string * json)) (dis : list (list (string * json)))
    (oc : option Q) st :
  ready st ws ->
  assoc "name" d = Some (JStr "update_shopping_list") ->
  assoc "args" d = Some (JDict a) ->
  assoc "items" a = Some (JList (map JDict dis)) ->
  Forall well_typed_item dis ->
  assoc "confidence" a = JNum <$> oc ->
  (forall q, oc = Some q -> float_safe q = true) ->
  exists st' its,
    on_message ws (tool_call_frame [JDict d]) st = (Ok tt, st')
    /\ Forall2 defaults_applied dis its
    /\ client_sent st' ws
       = client_sent st ws
         ++ [ShoppingListUpdated
               (list_state its (clock st) (default (8 # 10) oc))].
Proof.
  intros Hr Hname Hargs Hitems Hwt Hconf Hsafe.
  destruct (items_of_defaults dis Hwt) as (its & Hits & Hall).
  eexists _, its. split; [|split; [exact Hall|]].
  - apply update_call_step with (a := a) (elems := map JDict dis)
      (its := its) (c := default (8 # 10) oc); try assumption.
    + now rewrite Hargs.
    + now rewrite Hitems.
    + rewrite Hconf. destruct oc as [q|]; simpl; apply validate_float_num;
        [now apply Hsafe | reflexivity].
  - simpl. unfold client_sent. simpl.
    destruct Hr as (w & Hw & _). now rewrite lookup_alter_eq, Hw.
Qed.

(** C4, as the code has it: a call of a function other than
    [update_shopping_list] is dropped; the frame is counted, nothing is
    sent to the client and nothing, in particular no acknowledgment, is
    sent upstream. *)
Theorem unrecognized_call_is_not_acknowledged
    (d : list (string * json)) (fname : string) st :
  assoc "name" d = Some (JStr fname) ->
  fname <> "update_shopping_list" ->
  on_message ws (tool_call_frame [JDict d]) st
  = (Ok tt, set_gemini_service g_count st)
  /\ client_sent (set_gemini_service g_count st) ws = client_sent st ws
  /\ upstream_sent (set_gemini_service g_count st) = upstream_sent st.
Proof.
  intros Hname Hne. split; [|now split].
  unfold on_message, tool_call_frame, _handle_gemini_message, handle_func_call.
  run_m. rewrite Hname. run_m.
  apply String.eqb_neq in Hne. now rewrite Hne.
Qed.

(** C1, as the code has it: of two consecutive extraction calls each is
    sent to the client as one complete list, the second holding exactly
    the items of the second call; the handler keeps no list of its own,
    and the sessions, with their [shopping_list_state], are not written. *)
Theorem consecutive_updates_replace_on_the_wire
    (id1 id2 : json) (elems1 elems2 : list json)
    (its1 its2 : list ShoppingListItem) st :
  ready st ws ->
  items_of elems1 = Ok its1 ->
  items_of elems2 = Ok its2 ->
  exists st',
    receive_loop ws [extraction_frame id1 elems1; extraction_frame id2 elems2]
      Exhausted st = (Ok tt, st')
    /\ client_sent st' ws
       = client_sent st ws
         ++ [ShoppingListUpdated (list_state its1 (clock st) (8 # 10));
             ShoppingListUpdated (list_state its2 (S (clock st)) (8 # 10))]
    /\ sessions st' = sessions st.
Proof.
  intros Hr H1 H2. eexists. split; [|split].
  - cbn [receive_loop]. unfold bind at 1, extraction_frame.
    erewrite update_call_step;
      [|exact Hr|reflexivity|reflexivity|reflexivity|exact H1
       |now apply validate_float_num].
    unfold bind at 1.
    erewrite update_call_step;
      [|apply ready_deliver; exact Hr|reflexivity|reflexivity|reflexivity
       |exact H2|now apply validate_float_num].
    reflexivity.
  - destruct Hr as (w & Hw & _). unfold client_sent. simpl.
    rewrite !lookup_alter_eq, Hw. simpl. now rewrite <- app_assoc.
  - reflexivity.
Qed.

(** The pump never writes a session, whatever the upstream sends. *)
Lemma pump_leaves_sessions (frames : list frame) (fin : stream_end) st :
  sessions (snd (listen_for_responses ws frames fin st)) = sessions st.
Proof.
  assert (forall frames st,
            sessions (snd (receive_loop ws frames fin st)) = sessions st) as H.
  { clear. induction frames as [|f frames IH]; intros st.
    - simpl. now destruct fin.
    - cbn [receive_loop]. unfold bind.
      destruct (on_message_returns f st) as (st1 & -> & Hs & _).
      rewrite IH. exact Hs. }
  unfold listen_for_responses, try_except, bind, get_state.
  destruct (bool_decide _); simpl; [|reflexivity].
  specialize (H frames st).
  destruct (receive_loop ws frames fin st) as [[[]|e|] st']; exact H.
Qed.

End Pump.

(** ** The session table *)

Lemma create_session_spec ws uid w st :
  sockets st !! ws = Some w ->
  ws_fault w = None ->
  ws_state w = Connecting ->
  create_session ws uid st
  = (Ok (fresh (dom (sessions st))), created ws uid w st).
Proof.
  intros Hw Hf Hs. unfold create_session, accept, new_UserSession.
  run_m. rewrite Hw, Hf, Hs. reflexivity.
Qed.

(** C2, as the code has it: a second connection under the same identity
    overwrites the entry of the first, so the table holds one entry for
    the identity, that of the second session, and is otherwise as before;
    the first session object stays in memory and its client transport
    stays open: the endpoint does not close it. *)
Theorem second_connection_replaces_entry
    (ws1 ws2 : nat) (uid : string) (w1 w2 : WebSocket) st :
  ws1 <> ws2 ->
  sockets st !! ws1 = Some w1 -> ws_fault w1 = None ->
  ws_state w1 = Connecting ->
  sockets st !! ws2 = Some w2 -> ws_fault w2 = None ->
  ws_state w2 = Connecting ->
  exists s1 s2 st1 st2,
    create_session ws1 uid st = (Ok s1, st1)
    /\ create_session ws2 uid st1 = (Ok s2, st2)
    /\ s1 <> s2
    /\ active_sessions st1 !! uid = Some s1
    /\ active_sessions st2 = <[uid := s2]> (active_sessions st)
    /\ size (active_sessions st2) = size (active_sessions st1)
    /\ us_websocket <$> sessions st2 !! s2 = Some (Some ws2)
    /\ us_websocket <$> sessions st2 !! s1 = Some (Some ws1)
    /\ sockets st2 !! ws1 = Some (ws_set_state Connected w1).
Proof.
  intros Hne Hw1 Hf1 Hs1 Hw2 Hf2 Hs2.
  set (s1 := fresh (dom (sessions st))).
  set (st1 := created ws1 uid w1 st).
  set (s2 := fresh (dom (sessions st1))).
  assert (sockets st1 !! ws2 = Some w2) as Hw2'.
  { simpl. now rewrite lookup_insert_ne. }
  assert (is_Some (sessions st1 !! s1)) as Hs1in.
  { simpl. fold s1. rewrite !lookup_alter_eq, lookup_insert_eq. now eexists. }
  assert (s1 <> s2) as Hs12.
  { intros Heq. apply (is_fresh (dom (sessions st1))). fold s2.
    rewrite <- Heq. now apply elem_of_dom. }
  exists s1, s2, st1, (created ws2 uid w2 st1).
  split; [now apply create_session_spec|].
  split; [now apply create_session_spec|].
  split; [exact Hs12|].
  split; [simpl; fold s1; now rewrite lookup_insert_eq|].
  split; [simpl; fold s1 s2; now rewrite insert_insert_eq|].
  split.
  { simpl. fold s1 s2. apply map_size_insert_Some.
    rewrite lookup_insert_eq. now eexists. }
  split.
  { simpl. fold s1 s2. rewrite !lookup_alter_eq, lookup_insert_eq.
    reflexivity. }
  split.
  { destruct Hs1in as [x Hx]. simpl. fold s1 s2.
    rewrite !lookup_alter_ne, lookup_insert_ne by (intros E; now apply Hs12).
    fold s1. rewrite !lookup_alter_eq, lookup_insert_eq. reflexivity. }
  simpl. rewrite lookup_insert_ne by (intros E; now apply Hne).
  now rewrite lookup_insert_eq.
Qed.

(** ** Teardown *)

Section Keeps.
Variable I : State -> Prop.

Lemma keeps_ret {A} (a : A) : keeps I (ret a).
Proof. now intros st. Qed.

Lemma keeps_raise {A} e : keeps I (@raise A e).
Proof. now intros st. Qed.

Lemma keeps_lift {A} (r : res A) : keeps I (lift r).
Proof. now intros st. Qed.

Lemma keeps_blocked {A} : keeps I (@blocked A).
Proof. now intros st. Qed.

Lemma keeps_bind {A B} (m : M A) (k : A -> M B) :
  keeps I m -> (forall a, keeps I (k a)) -> keeps I (bind m k).
Proof.
  intros Hm Hk st Hst. unfold bind. specialize (Hm st Hst).
  destruct (m st) as [[a|e|] st1]; simpl in *; try exact Hm.
  now apply Hk.
Qed.

Lemma keeps_try_except {A} (m : M A) (h : exn -> M A) :
  keeps I m -> (forall e, keeps I (h e)) -> keeps I (try_except m h).
Proof.
  intros Hm Hh st Hst. unfold try_except. specialize (Hm st Hst).
  destruct (m st) as [[a|e|] st1]; simpl in *; try exact Hm.
  now apply Hh.
Qed.

End Keeps.

Create HintDb keeps.

Section TeardownFrame.
Context {P : Pydantic}.
Variables (v : option (option exn)) (uid : string) (ref : nat).

Lemma keeps_send_json ws' m : keeps (held v uid ref) (send_json ws' m).
Proof.
  intros st (Hc & Ha). destruct (steady_send_json ws' m st) as [_ Hf].
  destruct Hf as (_ & Ha' & _). split.
  - unfold send_json.
    destruct (sockets st !! ws') as [w|]; [|exact Hc].
    destruct (ws_fault w); [exact Hc|].
    destruct (ws_state w); exact Hc.
  - now rewrite Ha'.
Qed.

Lemma keeps_datetime_now : keeps (held v uid ref) datetime_now.
Proof. now intros st. Qed.

Lemma keeps_modify_sessions f :
  keeps (held v uid ref) (modify (set_sessions f)).
Proof. now intros st. Qed.

Lemma keeps_modify_task t :
  keeps (held v uid ref) (modify (set_gemini_task t)).
Proof. now intros st. Qed.

Lemma close_fault_best_effort m st :
  close_fault (set_gemini_service (best_effort m) st) = close_fault st.
Proof.
  destruct st as [a s k c [[u|] ic mc] t];
    unfold close_fault, best_effort; simpl;
    destruct (not_connected _); try reflexivity.
  destruct (up_send_fault u); [reflexivity|].
  now destruct (up_closed u).
Qed.

Lemma keeps_send_audio_chunk a : keeps (held v uid ref) (send_audio_chunk a).
Proof.
  intros st (Hc & Ha). rewrite send_audio_chunk_spec.
  split; [|exact Ha]. simpl. now rewrite close_fault_best_effort.
Qed.

#[local] Hint Resolve keeps_send_json keeps_datetime_now keeps_modify_sessions
  keeps_modify_task keeps_send_audio_chunk : keeps.

Ltac keeps_step :=
  first
    [ solve [eauto with keeps]
    | apply keeps_ret
    | apply keeps_raise
    | apply keeps_lift
    | apply keeps_bind; [|intros ?]
    | apply keeps_try_except; [|intros ?]
    | match goal with
      | |- keeps _ (if ?b then _ else _) => destruct b
      | |- keeps _ (match ?x with _ => _ end) => destruct x
      end ].

Lemma keeps_on_command ws session data :
  keeps (held v uid ref) (on_command ws uid session data).
Proof. unfold on_command. repeat keeps_step. Qed.

Lemma keeps_iteration ws session r :
  keeps (held v uid ref) (iteration ws uid session r).
Proof.
  pose proof keeps_on_command. unfold iteration, receive_json.
  repeat keeps_step.
Qed.

Lemma keeps_command_loop ws session inbox :
  keeps (held v uid ref) (command_loop ws uid session inbox).
Proof.
  induction inbox as [|r inbox IH]; simpl.
  - apply keeps_blocked.
  - apply keeps_bind; [apply keeps_iteration|].
    intros []; [exact IH | apply keeps_ret].
Qed.

End TeardownFrame.

(** The outcome of [connect] on a service without a connection. *)
Lemma connect_cases (dial : res Upstream) st :
  match dial with
  | Ok u =>
      exists b st1,
        connect dial st = (Ok b, st1)
        /\ (b = true <-> up_send_fault u = None /\ up_closed u = false)
        /\ close_fault st1 = Some (up_close_fault u)
        /\ active_sessions st1 = active_sessions st
        /\ sockets st1 = sockets st
  | Raise _ =>
      exists st1,
        connect dial st = (Ok false, st1)
        /\ close_fault st1 = close_fault st
        /\ active_sessions st1 = active_sessions st
        /\ sockets st1 = sockets st
  | Blocked => connect dial st = (Blocked, st)
  end.
Proof.
  destruct dial as [u|e|]; unfold connect, _send_setup_message, up_send.
  - run_m. destruct (up_send_fault u) as [e|] eqn:Hf; run_m.
    + eexists _, _. split; [reflexivity|]. split; [|now repeat split].
      split; [discriminate | now intros [? _]].
    + destruct (up_closed u) eqn:Hc; run_m.
      * eexists _, _. split; [reflexivity|]. split; [|now repeat split].
        split; [discriminate | now intros [_ ?]].
      * eexists _, _. split; [reflexivity|]. now repeat split.
  - run_m. eexists. split; [reflexivity|]. now repeat split.
  - reflexivity.
Qed.

(** The [finally] block when the upstream close raises: the exception
    leaves the block before the table is touched. *)
Lemma cleanup_close_raises uid e st :
  close_fault st = Some (Some e) -> cleanup uid st = (Raise e, st).
Proof.
  destruct st as [a s k c [[u|] ic mc] t]; unfold close_fault; simpl;
    intros Hc; [|discriminate].
  injection Hc as Hc. unfold cleanup, disconnect, up_close. run_m.
  rewrite Hc. reflexivity.
Qed.

(** The [finally] block when the upstream close, if there is one to do,
    returns: the link is marked down and the entry is deleted. *)
Lemma cleanup_returns uid st :
  close_fault st = None \/ close_fault st = Some None ->
  exists st',
    cleanup uid st = (Ok tt, st')
    /\ active_sessions st' = delete uid (active_sessions st)
    /\ is_connected (gemini_service st') = false
    /\ gemini_task st' = gemini_task st
    /\ sockets st' = sockets st.
Proof.
  destruct st as [a s k c [[u|] ic mc] t]; unfold close_fault; simpl;
    intros Hc; unfold cleanup, disconnect, up_close; run_m.
  - destruct Hc as [Hc|Hc]; [discriminate|]. injection Hc as Hc.
    rewrite Hc. run_m.
    destruct (a !! uid) eqn:Hu; run_m.
    + eexists. split; [reflexivity|]. now repeat split.
    + eexists. split; [reflexivity|]. simpl.
      rewrite delete_id by exact Hu. now repeat split.
  - destruct (a !! uid) eqn:Hu; run_m.
    + eexists. split; [reflexivity|]. now repeat split.
    + eexists. split; [reflexivity|]. simpl.
      rewrite delete_id by exact Hu. now repeat split.
Qed.

Section Teardown.
Context {P : Pydantic}.
Variables (ws : nat) (uid : string) (ref : nat).

(** Once the upstream connection is made, the [try] block leaves it and
    the table entry in place, whatever the client sends and whether or
    not the client can still be reached. *)
Lemma serve_holds session u inbox st :
  held None uid ref st ->
  held (Some (up_close_fault u)) uid ref
    (snd (serve ws uid session (Ok u) inbox st)).
Proof.
  intros (Hc & Ha).
  destruct (connect_cases (Ok u) st) as (b & st1 & Hconn & _ & Hc1 & Ha1 & _).
  assert (held (Some (up_close_fault u)) uid ref st1) as H1
    by (split; [exact Hc1 | now rewrite Ha1]).
  unfold serve, try_except. rewrite (bind_ok _ _ _ _ _ Hconn).
  destruct b.
  - assert (keeps (held (Some (up_close_fault u)) uid ref)
              (modify (set_gemini_task Scheduled) ;;
               command_loop ws uid session inbox ;;
               modify (set_gemini_task Cancelled))) as Hk.
    { apply keeps_bind; [apply keeps_modify_task|]. intros _.
      apply keeps_bind; [apply keeps_command_loop|]. intros _.
      apply keeps_modify_task. }
    specialize (Hk st1 H1).
    destruct ((modify (set_gemini_task Scheduled) ;;
               command_loop ws uid session inbox ;;
               modify (set_gemini_task Cancelled)) st1) as [[[]|e|] s2];
      simpl in *; try exact Hk.
    now apply keeps_send_json.
  - pose proof (keeps_send_json (Some (up_close_fault u)) uid ref ws
                  (Error (Literal "Failed to connect to Gemini Live API"))
                  st1 H1) as Hk.
    destruct (send_json ws _ st1) as [[[]|e|] s2]; simpl in *;
      try exact Hk.
    now apply keeps_send_json.
Qed.

(** When the close of the upstream connection raises, the [try ...
    finally] of the endpoint, when it comes to an end, ends with that
    exception and the session is still in the table: whatever the client
    sent, and also when the client could not be reached any more. *)
Lemma failed_close_skips_removal session u e inbox st r st' :
  held None uid ref st ->
  up_close_fault u = Some e ->
  try_finally (serve ws uid session (Ok u) inbox) (cleanup uid) st = (r, st') ->
  r <> Blocked ->
  r = Raise e /\ active_sessions st' !! uid = Some ref.
Proof.
  intros H0 Hu Hrun Hnb.
  pose proof (serve_holds session u inbox st H0) as [Hc Ha].
  rewrite Hu in Hc. unfold try_finally in Hrun.
  destruct (serve ws uid session (Ok u) inbox st) as [[[]|e'|] s1];
    simpl in *.
  - unfold bind in Hrun. rewrite (cleanup_close_raises uid e s1 Hc) in Hrun.
    injection Hrun as <- <-. now split.
  - unfold bind in Hrun. rewrite (cleanup_close_raises uid e s1 Hc) in Hrun.
    injection Hrun as <- <-. now split.
  - injection Hrun as <- <-. now destruct Hnb.
Qed.

End Teardown.

(** * Concrete runs *)

Lemma ready_active : ready active 0.
Proof.
  exists {| ws_state := Connected; ws_fault := None; ws_sent := [] |}.
  split; [vm_compute; reflexivity|]. split; reflexivity.
Defined.

Lemma ready_offline : ready offline 0.
Proof.
  exists {| ws_state := Connected; ws_fault := None; ws_sent := [] |}.
  split; [vm_compute; reflexivity|]. split; reflexivity.
Defined.

(** C1 fails as stated: after the two extraction calls the client has been
    sent the second list, but the session of the client still holds the
    empty list it was created with. *)
Lemma session_list_is_not_replaced :
  let st' :=
    snd (listen_for_responses (P := strict_pydantic) 0
           [extraction_frame (JStr "call-1") first_call_items;
            extraction_frame (JStr "call-2") second_call_items]
           Exhausted active) in
  active_sessions st' !! "user" = Some 0
  /\ client_sent st' 0
     = [ShoppingListUpdated (list_state first_list 3 (8 # 10));
        ShoppingListUpdated (list_state second_list 4 (8 # 10))]
  /\ items <$> (shopping_list_state <$> sessions st' !! 0) = Some []
  /\ items <$> (shopping_list_state <$> sessions st' !! 0) <> Some second_list.
Proof.
  split; [vm_compute; reflexivity|]. split; [vm_compute; reflexivity|].
  split; [vm_compute; reflexivity|]. vm_compute. discriminate.
Qed.

(** C2 fails as stated: after a second connection as "user" the table has
    the second session, and the client transport of the first is still
    connected. *)
Lemma first_transport_stays_open :
  let st2 := snd ((create_session 0 "user" ;; create_session 1 "user") boot) in
  active_sessions st2 !! "user" = Some 1
  /\ us_websocket <$> sessions st2 !! 0 = Some (Some 0)
  /\ ws_state <$> sockets st2 !! 0 = Some Connected
  /\ ws_state <$> sockets st2 !! 0 <> Some Disconnected.
Proof.
  split; [vm_compute; reflexivity|]. split; [vm_compute; reflexivity|].
  split; [vm_compute; reflexivity|]. vm_compute. discriminate.
Qed.

(** C3 fails as stated: an item without a category gets the category
    "Ogólne", not "general". *)
Lemma missing_category_is_not_general :
  exists it,
    client_sent
      (snd (on_message (P := strict_pydantic) 0
              (extraction_frame (JStr "call-1") first_call_items) active)) 0
    = [ShoppingListUpdated (list_state [it] 3 (8 # 10))]
    /\ name it = "milk"
    /\ category it = default_category
    /\ category it <> "general".
Proof.
  eexists. split; [vm_compute; reflexivity|]. split; [reflexivity|].
  split; [reflexivity|]. vm_compute. discriminate.
Qed.

(** A quantity beyond the range of a [float]: with a validator that
    refuses it, building the item raises inside the handler; the pump
    counts the frame and goes on, the client gets no list and the
    upstream no acknowledgement. *)
Lemma refused_quantity_drops_update :
  let huge := JNum (Qmake (10 ^ 400) 1) in
  let out :=
    listen_for_responses (P := cautious_pydantic) 0
      [extraction_frame (JStr "call-1")
         [JDict [("name", JStr "milk"); ("quantity", huge)]]]
      Exhausted active in
  float_safe (Qmake (10 ^ 400) 1) = false
  /\ fst out = Ok tt
  /\ client_sent (snd out) 0 = []
  /\ upstream_sent (snd out) = [Setup]
  /\ message_count (gemini_service (snd out)) = 1.
Proof. repeat split; vm_compute; reflexivity. Qed.

(** C4 fails as stated: with the link up, a call of another function
    leaves the upstream without any message, while a call of
    [update_shopping_list] in the same state is acknowledged. *)
Lemma unrecognized_call_gets_no_ack :
  let st' :=
    snd (on_message (P := strict_pydantic) 0
           (tool_call_frame [JDict other_call]) active) in
  is_connected (gemini_service active) = true
  /\ upstream_sent active = [Setup]
  /\ upstream_sent st' = [Setup]
  /\ client_sent st' 0 = []
  /\ upstream_sent
       (snd (on_message (P := strict_pydantic) 0
               (extraction_frame (JStr "call-1") first_call_items) active))
     = [Setup; ToolResponse "update_shopping_list" (JStr "call-1") success].
Proof. repeat split; vm_compute; reflexivity. Qed.

(** C5 fails as stated: an [audio_chunk] whose payload is empty gets no
    [audio_received]. *)
Lemma empty_audio_chunk_gets_no_reply :
  let out :=
    command_loop (P := strict_pydantic) 0 "user" 0
      [Recv (audio_chunk ("", JNum (7 # 1)))] active in
  fst out = Blocked /\ client_sent (snd out) 0 = [].
Proof. split; vm_compute; reflexivity. Qed.

(** C6: the teardown of the code is one sequence without guards of its
    own, and the removal from the table is skipped when the close of the
    upstream connection raises.  For a session that the client stops,
    over an upstream connection whose close raises [OSError]: the
    listening task is cancelled, the endpoint ends with [OSError], the
    link is still marked up and the session is still in the table.  The
    same run over an upstream connection that closes returns, marks the
    link down and removes the session. *)
Theorem failed_close_keeps_session_registered :
  let out :=
    websocket_endpoint (P := strict_pydantic) 0 "user" (Ok stuck_upstream)
      [stop_session] boot in
  let fine :=
    websocket_endpoint (P := strict_pydantic) 0 "user" (Ok fresh_upstream)
      [stop_session] boot in
  (fst out = Raise OSError
   /\ gemini_task (snd out) = Cancelled
   /\ is_connected (gemini_service (snd out)) = true
   /\ active_sessions (snd out) !! "user" = Some 0)
  /\ (fst fine = Ok tt
      /\ gemini_task (snd fine) = Cancelled
      /\ is_connected (gemini_service (snd fine)) = false
      /\ active_sessions (snd fine) !! "user" = None).
Proof. repeat split; vm_compute; reflexivity. Qed.

(** The cancel of the listening task is skipped when an exception leaves
    the command loop: with a client that cannot be reached any more, the
    report of the failed pong fails too, the [try ... finally] ends with
    the exception of the transport, and the task is still scheduled
    although the upstream connection is closed and the session removed. *)
Lemma lost_client_skips_cancel :
  let out :=
    try_finally
      (serve (P := strict_pydantic) 0 "user" 0 (Ok fresh_upstream) [ping])
      (cleanup "user") vanished in
  active_sessions vanished !! "user" = Some 0
  /\ fst out = Raise OSError
  /\ gemini_task (snd out) = Scheduled
  /\ (up_closed <$> websocket (gemini_service (snd out))) = Some true
  /\ is_connected (gemini_service (snd out)) = false
  /\ active_sessions (snd out) !! "user" = None.
Proof. repeat split; vm_compute; reflexivity. Qed.

(** With the upstream close failing as well, the same client leaves the
    task scheduled and the session in the table. *)
Lemma lost_client_and_failed_close :
  let out :=
    try_finally
      (serve (P := strict_pydantic) 0 "user" 0 (Ok stuck_upstream) [ping])
      (cleanup "user") vanished in
  fst out = Raise OSError
  /\ gemini_task (snd out) = Scheduled
  /\ active_sessions (snd out) !! "user" = Some 0.
Proof.
  intros out.
  assert (held None "user" 0 vanished) as H0
    by (split; vm_compute; reflexivity).
  destruct (failed_close_skips_removal (P := strict_pydantic) 0 "user" 0 0
              stuck_upstream OSError [ping] vanished (fst out) (snd out)
              H0 eq_refl) as [Hr Ha].
  - apply surjective_pairing.
  - vm_compute. discriminate.
  - split; [exact Hr|]. split; [vm_compute; reflexivity | exact Ha].
Qed.

(** C7 fails as stated: when the upstream connection closes, the pump
    returns and the client has been sent nothing. *)
Lemma upstream_close_sends_no_status :
  let out :=
    listen_for_responses (P := strict_pydantic) 0 []
      (Raises ConnectionClosed) active in
  fst out = Ok tt
  /\ client_sent (snd out) 0 = []
  /\ is_connected (gemini_service (snd out)) = false.
Proof. repeat split; vm_compute; reflexivity. Qed.

(** ** The theorems at concrete inputs *)

Lemma consecutive_updates_witness :
  ready active 0
  /\ items_of (P := strict_pydantic) first_call_items = Ok first_list
  /\ items_of (P := strict_pydantic) second_call_items = Ok second_list
  /\ exists st',
       receive_loop (P := strict_pydantic) 0
         [extraction_frame (JStr "call-1") first_call_items;
          extraction_frame (JStr "call-2") second_call_items]
         Exhausted active = (Ok tt, st')
       /\ client_sent st' 0
          = client_sent active 0
            ++ [ShoppingListUpdated
                  (list_state first_list (clock active) (8 # 10));
                ShoppingListUpdated
                  (list_state second_list (S (clock active)) (8 # 10))]
       /\ sessions st' = sessions active.
Proof.
  assert (items_of (P := strict_pydantic) first_call_items = Ok first_list)
    as h1 by reflexivity.
  assert (items_of (P := strict_pydantic) second_call_items = Ok second_list)
    as h2 by reflexivity.
  exact (conj ready_active (conj h1 (conj h2
    (consecutive_updates_replace_on_the_wire (P := strict_pydantic) 0
       (JStr "call-1") (JStr "call-2") first_call_items second_call_items
       first_list second_list active ready_active h1 h2)))).
Defined.

Lemma second_connection_witness :
  0 <> 1
  /\ sockets boot !! 0 = Some connecting_socket
  /\ sockets boot !! 1 = Some connecting_socket
  /\ exists s1 s2 st1 st2,
       create_session 0 "user" boot = (Ok s1, st1)
       /\ create_session 1 "user" st1 = (Ok s2, st2)
       /\ s1 <> s2
       /\ active_sessions st1 !! "user" = Some s1
       /\ active_sessions st2 = <["user" := s2]> (active_sessions boot)
       /\ size (active_sessions st2) = size (active_sessions st1)
       /\ us_websocket <$> sessions st2 !! s2 = Some (Some 1)
       /\ us_websocket <$> sessions st2 !! s1 = Some (Some 0)
       /\ sockets st2 !! 0 = Some (ws_set_state Connected connecting_socket).
Proof.
  assert (0 <> 1) as hne by discriminate.
  assert (sockets boot !! 0 = Some connecting_socket) as h0
    by (vm_compute; reflexivity).
  assert (sockets boot !! 1 = Some connecting_socket) as h1
    by (vm_compute; reflexivity).
  exact (conj hne (conj h0 (conj h1
    (second_connection_replaces_entry 0 1 "user" connecting_socket
       connecting_socket boot hne h0 eq_refl eq_refl h1 eq_refl eq_refl)))).
Defined.

Lemma extraction_defaults_witness :
  ready active 0
  /\ Forall well_typed_item
       [[("name", JStr "milk"); ("quantity", JNum (1 # 1))];
        [("quantity", JNum (3 # 2)); ("unit", JStr "kg")]]
  /\ (forall q, Some (9 # 10) = Some q -> float_safe q = true)
  /\ exists st' its,
       on_message (P := strict_pydantic) 0
         (tool_call_frame
            [JDict
               [("name", JStr "update_shopping_list"); ("id", JStr "call-1");
                ("args",
                 JDict
                   [("items",
                     JList
                       (map JDict
                          [[("name", JStr "milk");
                            ("quantity", JNum (1 # 1))];
                           [("quantity", JNum (3 # 2));
                            ("unit", JStr "kg")]]));
                    ("confidence", JNum (9 # 10))])]]) active
       = (Ok tt, st')
       /\ Forall2 defaults_applied
            [[("name", JStr "milk"); ("quantity", JNum (1 # 1))];
             [("quantity", JNum (3 # 2)); ("unit", JStr "kg")]] its
       /\ client_sent st' 0
          = client_sent active 0
            ++ [ShoppingListUpdated
                  (list_state its (clock active)
                     (default (8 # 10) (Some (9 # 10))))].
Proof.
  assert (Forall well_typed_item
            [[("name", JStr "milk"); ("quantity", JNum (1 # 1))];
             [("quantity", JNum (3 # 2)); ("unit", JStr "kg")]]) as hwt.
  { constructor; [|constructor; [|constructor]];
      repeat split; simpl; intros v Hv; try discriminate;
      injection Hv as <-; eauto. }
  assert (forall q, Some (9 # 10) = Some q -> float_safe q = true) as hc
    by (intros q [= <-]; reflexivity).
  exact (conj ready_active (conj hwt (conj hc
    (extraction_call_applies_defaults (P := strict_pydantic) 0
       [("name", JStr "update_shopping_list"); ("id", JStr "call-1");
        ("args",
         JDict
           [("items",
             JList
               (map JDict
                  [[("name", JStr "milk"); ("quantity", JNum (1 # 1))];
                   [("quantity", JNum (3 # 2)); ("unit", JStr "kg")]]));
            ("confidence", JNum (9 # 10))])]
       [("items",
         JList
           (map JDict
              [[("name", JStr "milk"); ("quantity", JNum (1 # 1))];
               [("quantity", JNum (3 # 2)); ("unit", JStr "kg")]]));
        ("confidence", JNum (9 # 10))]
       [[("name", JStr "milk"); ("quantity", JNum (1 # 1))];
        [("quantity", JNum (3 # 2)); ("unit", JStr "kg")]]
       (Some (9 # 10)) active
       ready_active eq_refl eq_refl eq_refl hwt eq_refl hc)))).
Defined.

Lemma unrecognized_call_witness :
  assoc "name" other_call = Some (JStr "other_function")
  /\ "other_function" <> "update_shopping_list"
  /\ on_message (P := strict_pydantic) 0
       (tool_call_frame [JDict other_call]) active
     = (Ok tt, set_gemini_service g_count active)
  /\ client_sent (set_gemini_service g_count active) 0 = client_sent active 0
  /\ upstream_sent (set_gemini_service g_count active) = upstream_sent active.
Proof.
  assert ("other_function" <> "update_shopping_list") as hne by discriminate.
  exact (conj eq_refl (conj hne
    (unrecognized_call_is_not_acknowledged (P := strict_pydantic) 0
       other_call "other_function" active eq_refl hne))).
Defined.

Lemma audio_replies_witness :
  ready active 0
  /\ exists st',
       command_loop (P := strict_pydantic) 0 "user" 0
         (map (fun c => Recv (audio_chunk c)) three_chunks) active
       = (Blocked, st')
       /\ ready st' 0
       /\ client_sent st' 0
          = client_sent active 0
            ++ map audio_received (filter (fun c => c.1 <> "") three_chunks).
Proof.
  exact (conj ready_active
    (audio_replies_in_order (P := strict_pydantic) 0 "user" 0 three_chunks
       active ready_active)).
Defined.

Lemma upstream_close_witness :
  is_Some (websocket (gemini_service active))
  /\ exists st1,
       receive_loop (P := strict_pydantic) 0 [text_frame "hello"] Exhausted
         active = (Ok tt, st1)
       /\ listen_for_responses (P := strict_pydantic) 0 [text_frame "hello"]
            (Raises ConnectionClosed) active
          = (Ok tt, set_gemini_service (g_set_is_connected false) st1)
       /\ client_sent (set_gemini_service (g_set_is_connected false) st1) 0
          = client_sent st1 0
       /\ is_connected
            (gemini_service
               (set_gemini_service (g_set_is_connected false) st1))
          = false.
Proof.
  assert (is_Some (websocket (gemini_service active))) as hw
    by (eexists; vm_compute; reflexivity).
  exact (conj hw
    (upstream_close_ends_pump_silently (P := strict_pydantic) 0
       [text_frame "hello"] active hw)).
Defined.

Lemma ping_witness :
  ready active 0
  /\ assoc "type" [("type", JStr "ping")] = Some (JStr "ping")
  /\ exists st',
       iteration (P := strict_pydantic) 0 "user" 0
         (Recv (JDict [("type", JStr "ping")])) active = (Ok Continue, st')
       /\ client_sent st' 0 = client_sent active 0 ++ [Pong (S (clock active))]
       /\ sessions st'
          = alter (s_set_last_activity (clock active)) 0 (sessions active)
       /\ (forall s, sessions active !! 0 = Some s ->
           exists s', sessions st' !! 0 = Some s'
             /\ shopping_list_state s' = shopping_list_state s
             /\ user_id s' = user_id s
             /\ us_websocket s' = us_websocket s
             /\ us_gemini_service s' = us_gemini_service s
             /\ us_is_connected s' = us_is_connected s
             /\ created_at s' = created_at s
             /\ last_activity s' = clock active)
       /\ active_sessions st' = active_sessions active
       /\ gemini_service st' = gemini_service active
       /\ gemini_task st' = gemini_task active.
Proof.
  exact (conj ready_active (conj eq_refl
    (ping_replies_pong_and_only_stamps (P := strict_pydantic) 0 "user" 0
       [("type", JStr "ping")] active ready_active eq_refl))).
Defined.

Lemma audio_offline_witness :
  ready offline 0
  /\ not_connected (gemini_service offline) = true
  /\ "abc" <> ""
  /\ exists st',
       iteration (P := strict_pydantic) 0 "user" 0
         (Recv (JDict (audio_fields ("abc", JNum (1 # 1))))) offline
       = (Ok Continue, st')
       /\ client_sent st' 0
          = client_sent offline 0
            ++ [audio_reply (audio_fields ("abc", JNum (1 # 1))) "abc" offline]
       /\ gemini_service st' = gemini_service offline
       /\ upstream_sent st' = upstream_sent offline.
Proof.
  assert (not_connected (gemini_service offline) = true) as hn
    by (vm_compute; reflexivity).
  assert ("abc" <> "") as hp by discriminate.
  exact (conj ready_offline (conj hn (conj hp
    (audio_acknowledged_while_upstream_down (P := strict_pydantic) 0 "user" 0
       (audio_fields ("abc", JNum (1 # 1))) "abc" offline
       ready_offline hn eq_refl eq_refl hp)))).
Defined.

(** * Further properties of the command loop *)

Section Commands.
Context {P : Pydantic}.
Variables (ws : nat) (uid : string) (session : nat).

(** [stop_session] is answered with [session_stopped] and ends the loop:
    whatever the client sent after it is never received. *)
Theorem stop_session_ends_loop
    (d : list (string * json)) (rest : list recv) st :
  ready st ws ->
  assoc "type" d = Some (JStr "stop_session") ->
  command_loop ws uid session (Recv (JDict d) :: rest) st
  = (Ok tt, deliver ws (SessionStopped "Session stopped") (stamped session st))
  /\ client_sent
       (deliver ws (SessionStopped "Session stopped") (stamped session st)) ws
     = client_sent st ws ++ [SessionStopped "Session stopped"].
Proof.
  intros Hr Hd. split; [|now rewrite client_sent_deliver by exact Hr].
  cbn [command_loop]. unfold iteration, receive_json, on_command.
  run_m. rewrite Hd. run_m.
  rewrite send_json_ready by exact Hr. reflexivity.
Qed.

(** [start_session] can be sent any number of times: each one is answered
    with the same [session_started] carrying the identity, and nothing but
    the activity stamp and the clock changes. *)
Theorem start_session_repeats (d : list (string * json)) (n : nat) st :
  ready st ws ->
  assoc "type" d = Some (JStr "start_session") ->
  exists st',
    command_loop ws uid session (replicate n (Recv (JDict d))) st
    = (Blocked, st')
    /\ ready st' ws
    /\ client_sent st' ws
       = client_sent st ws
         ++ replicate n (SessionStarted uid "Session started successfully")
    /\ active_sessions st' = active_sessions st
    /\ gemini_service st' = gemini_service st
    /\ gemini_task st' = gemini_task st.
Proof.
  intros Hr Hd. revert st Hr. induction n as [|n IH]; intros st Hr.
  - exists st. simpl. rewrite app_nil_r. now repeat split.
  - set (st1 := deliver ws (SessionStarted uid "Session started successfully")
                  (stamped session st)).
    assert (ready st1 ws) as Hr1 by (now apply ready_deliver).
    destruct (IH st1 Hr1) as (st' & Hrun & Hr' & Hsent & Ha & Hg & Ht).
    exists st'. split; [|split; [exact Hr'|split; [|now repeat split]]].
    + cbn [replicate command_loop]. unfold bind at 1.
      assert (iteration ws uid session (Recv (JDict d)) st = (Ok Continue, st1))
        as ->; [|exact Hrun].
      unfold iteration, receive_json, on_command.
      run_m. rewrite Hd. run_m.
      rewrite send_json_ready by exact Hr. reflexivity.
    + rewrite Hsent. unfold st1. rewrite client_sent_deliver by exact Hr.
      now rewrite <- app_assoc.
Qed.

(** A message whose type is none of the five known ones is ignored: no
    reply, no upstream traffic; only the activity stamp is written. *)
Theorem unknown_command_is_ignored (d : list (string * json)) st :
  (forall k, In k ["audio_chunk"; "start_session"; "stop_session"; "ping";
                   "test_audio"] ->
             assoc "type" d <> Some (JStr k)) ->
  iteration ws uid session (Recv (JDict d)) st
  = (Ok Continue, stamped session st)
  /\ client_sent (stamped session st) ws = client_sent st ws
  /\ gemini_service (stamped session st) = gemini_service st.
Proof.
  intros Hk. split; [|now split].
  assert (forall k, In k ["audio_chunk"; "start_session"; "stop_session";
                          "ping"; "test_audio"] ->
                    is_str k (default JNull (assoc "type" d)) = false) as Hs.
  { intros k Hin. specialize (Hk k Hin).
    destruct (assoc "type" d) as [[| | |s| |]|]; try reflexivity. simpl.
    destruct (String.eqb_spec s k) as [->|]; [now contradict Hk|reflexivity]. }
  unfold iteration, receive_json, on_command. run_m.
  rewrite !Hs by (simpl; tauto). reflexivity.
Qed.

(** A message that is not a JSON object is reported to the client as an
    error and the loop goes on; the activity stamp is not written. *)
Theorem non_object_message_is_reported (data : json) st :
  ready st ws ->
  (forall d, data <> JDict d) ->
  iteration ws uid session (Recv data) st
  = (Ok Continue, deliver ws (Error (StrOf AttributeError)) st).
Proof.
  intros Hr Hd. unfold iteration, receive_json, on_command.
  destruct data as [| | | | |d]; try (exfalso; now apply (Hd d)); run_m;
    rewrite send_json_ready by exact Hr; reflexivity.
Qed.

(** When receiving raises anything but [WebSocketDisconnect], the text of
    the exception is sent to the client and the loop goes on. *)
Theorem receive_error_is_reported (e : exn) st :
  ready st ws ->
  e <> WebSocketDisconnect ->
  iteration ws uid session (RecvRaises e) st
  = (Ok Continue, deliver ws (Error (StrOf e)) st).
Proof.
  intros Hr He. unfold iteration, receive_json. run_m.
  destruct e; try (now contradict He); run_m;
    rewrite send_json_ready by exact Hr; reflexivity.
Qed.

(** The loop ends at the first disconnect: nothing is sent for it and the
    messages after it are never received. *)
Theorem disconnect_ends_loop (pre rest : list recv) st :
  command_loop ws uid session (pre ++ RecvRaises WebSocketDisconnect :: rest) st
  = command_loop ws uid session (pre ++ [RecvRaises WebSocketDisconnect]) st
  /\ command_loop ws uid session (RecvRaises WebSocketDisconnect :: rest) st
     = (Ok tt, st).
Proof.
  split; [|reflexivity]. revert st. induction pre as [|r pre IH]; intros st.
  - reflexivity.
  - cbn [app command_loop]. unfold bind.
    destruct (iteration ws uid session r st) as [[[]|e|] st1];
      try reflexivity.
    apply IH.
Qed.

(** [test_audio] does not involve the upstream: the client gets the text
    back as a user transcript (a fixed sentence when no text is given) and
    then a list with the single fixed item, confidence 0.95. *)
Theorem test_audio_simulates_update (d : list (string * json)) st :
  ready st ws ->
  assoc "type" d = Some (JStr "test_audio") ->
  exists st',
    iteration ws uid session (Recv (JDict d)) st = (Ok Continue, st')
    /\ client_sent st' ws
       = client_sent st ws
         ++ [Transcript
               (default (JStr "Dodaj mleko do listy") (assoc "text" d)) true;
             ShoppingListUpdated
               (list_state
                  [{| name := "mleko"; quantity := 1 # 1; unit_ := None;
                      category := "Nabiał" |}]
                  (S (clock st)) (95 # 100))]
    /\ gemini_service st' = gemini_service st
    /\ active_sessions st' = active_sessions st.
Proof.
  intros Hr Hd. eexists. split.
  - unfold iteration, receive_json, on_command. run_m. rewrite Hd. run_m.
    unfold test_item, new_ShoppingListItem, new_ShoppingListState.
    rewrite !validate_str_str, !validate_float_num by reflexivity. run_m.
    rewrite send_json_ready by exact Hr. run_m.
    rewrite send_json_ready by (apply ready_deliver; exact Hr).
    reflexivity.
  - destruct Hr as (w & Hw & _). unfold client_sent. simpl.
    rewrite !lookup_alter_eq, Hw. simpl. rewrite <- app_assoc.
    now repeat split.
Qed.

(** With the link up and healthy the payload of an [audio_chunk] is
    forwarded upstream exactly once, as one realtime-input frame. *)
Theorem audio_forwarded_once (d : list (string * json)) (p : string)
    (u : Upstream) st :
  ready st ws ->
  assoc "type" d = Some (JStr "audio_chunk") ->
  assoc "audio_data" d = Some (JStr p) ->
  p <> "" ->
  is_connected (gemini_service st) = true ->
  websocket (gemini_service st) = Some u ->
  up_send_fault u = None ->
  up_closed u = false ->
  exists st',
    iteration ws uid session (Recv (JDict d)) st = (Ok Continue, st')
    /\ upstream_sent st' = upstream_sent st ++ [RealtimeInput (JStr p)]
    /\ is_connected (gemini_service st') = true.
Proof.
  intros Hr Ht Ha Hp Hc Hw Hf Hcl. exists (after_audio ws session d p st).
  split; [now apply audio_chunk_step|].
  apply String.eqb_neq in Hp. unfold after_audio, upstream_sent. rewrite Hp.
  destruct st as [a s k c [w ic mc] t]; simpl in *. subst w ic.
  unfold best_effort, not_connected; simpl. rewrite Hf, Hcl. now split.
Qed.

End Commands.

(** ** What the command loop never touches *)

Section Follows.
Variable R : State -> State -> Prop.
Hypothesis R_refl : forall st, R st st.
Hypothesis R_trans : forall st1 st2 st3, R st1 st2 -> R st2 st3 -> R st1 st3.

Lemma follows_ret {A} (a : A) : follows R (ret a).
Proof. intros st. apply R_refl. Qed.

Lemma follows_raise {A} e : follows R (@raise A e).
Proof. intros st. apply R_refl. Qed.

Lemma follows_lift {A} (r : res A) : follows R (lift r).
Proof. intros st. apply R_refl. Qed.

Lemma follows_blocked {A} : follows R (@blocked A).
Proof. intros st. apply R_refl. Qed.

Lemma follows_get_state : follows R get_state.
Proof. intros st. apply R_refl. Qed.

Lemma follows_bind {A B} (m : M A) (k : A -> M B) :
  follows R m -> (forall a, follows R (k a)) -> follows R (bind m k).
Proof.
  intros Hm Hk st. unfold bind. specialize (Hm st).
  destruct (m st) as [[a|e|] st1]; simpl in *; try exact Hm.
  eapply R_trans; [exact Hm | apply Hk].
Qed.

Lemma follows_try_except {A} (m : M A) (h : exn -> M A) :
  follows R m -> (forall e, follows R (h e)) -> follows R (try_except m h).
Proof.
  intros Hm Hh st. unfold try_except. specialize (Hm st).
  destruct (m st) as [[a|e|] st1]; simpl in *; try exact Hm.
  eapply R_trans; [exact Hm | apply Hh].
Qed.

Lemma follows_for_each {A} (l : list A) (body : A -> M unit) :
  (forall x, follows R (body x)) -> follows R (for_each l body).
Proof.
  intros Hb. induction l as [|x l IH]; simpl.
  - apply follows_ret.
  - apply follows_bind; [apply Hb | intros _; exact IH].
Qed.

End Follows.

Ltac follows_step R_refl R_trans :=
  first
    [ solve [eauto with follows]
    | apply (follows_ret _ R_refl)
    | apply (follows_raise _ R_refl)
    | apply (follows_lift _ R_refl)
    | apply (follows_blocked _ R_refl)
    | apply (follows_get_state _ R_refl)
    | apply (follows_bind _ R_trans); [|intros ?]
    | apply (follows_try_except _ R_trans); [|intros ?]
    | apply (follows_for_each _ R_refl R_trans); intros ?
    | match goal with
      | |- follows _ (if ?b then _ else _) => destruct b
      | |- follows _ (match ?x with _ => _ end) => destruct x
      end ].

Lemma same_but_activity_refl s : same_but_activity s s.
Proof. now repeat split. Qed.

Lemma same_but_activity_trans s1 s2 s3 :
  same_but_activity s1 s2 -> same_but_activity s2 s3 ->
  same_but_activity s1 s3.
Proof.
  intros (A1 & A2 & A3 & A4 & A5 & A6) (B1 & B2 & B3 & B4 & B5 & B6).
  repeat split; congruence.
Qed.

Lemma loop_frame_refl ws st : loop_frame ws st st.
Proof.
  repeat split. intros ref. destruct (sessions st !! ref); [|exact I].
  apply same_but_activity_refl.
Qed.

Lemma loop_frame_trans ws st1 st2 st3 :
  loop_frame ws st1 st2 -> loop_frame ws st2 st3 -> loop_frame ws st1 st3.
Proof.
  intros (Ha & Ht & Hs & Hm) (Ha' & Ht' & Hs' & Hm').
  split; [congruence|]. split; [congruence|]. split.
  - intros ws' Hne. rewrite Hs' by exact Hne. now apply Hs.
  - intros ref. specialize (Hm ref). specialize (Hm' ref).
    destruct (sessions st1 !! ref), (sessions st2 !! ref),
      (sessions st3 !! ref); try tauto.
    eapply same_but_activity_trans; eassumption.
Qed.

Create HintDb follows.

Section LoopFrame.
Context {P : Pydantic}.
Variables (ws : nat) (uid : string) (session : nat).

Lemma follows_send_json m : follows (loop_frame ws) (send_json ws m).
Proof.
  intros st. unfold send_json.
  destruct (sockets st !! ws) as [w|]; [|apply loop_frame_refl].
  destruct (ws_fault w); [apply loop_frame_refl|].
  destruct (ws_state w); try apply loop_frame_refl.
  simpl. split; [reflexivity|]. split; [reflexivity|]. split.
  - intros ws' Hne. simpl. now rewrite lookup_insert_ne.
  - intros ref. simpl. destruct (sessions st !! ref); [|exact I].
    apply same_but_activity_refl.
Qed.

Lemma follows_datetime_now : follows (loop_frame ws) datetime_now.
Proof. intros st. apply (loop_frame_refl ws st). Qed.

Lemma follows_send_audio_chunk a : follows (loop_frame ws) (send_audio_chunk a).
Proof.
  intros st. rewrite send_audio_chunk_spec. apply (loop_frame_refl ws st).
Qed.

Lemma follows_stamp t :
  follows (loop_frame ws)
    (modify (set_sessions (alter (s_set_last_activity t) session))).
Proof.
  intros st. simpl. repeat split. intros ref. simpl.
  destruct (decide (session = ref)) as [->|Hne].
  - rewrite lookup_alter_eq. destruct (sessions st !! ref); simpl; [|exact I].
    now repeat split.
  - rewrite lookup_alter_ne by exact Hne.
    destruct (sessions st !! ref); [|exact I]. apply same_but_activity_refl.
Qed.

#[local] Hint Resolve follows_send_json follows_datetime_now
  follows_send_audio_chunk follows_stamp : follows.

Lemma follows_iteration r :
  follows (loop_frame ws) (iteration ws uid session r).
Proof.
  unfold iteration, receive_json, on_command.
  repeat follows_step (loop_frame_refl ws) (loop_frame_trans ws).
Qed.

(** Whatever the client sends, the command loop leaves the table of
    sessions, the task handle and every other client socket as they are,
    and of the session objects it changes only [last_activity]. *)
Theorem command_loop_writes_only_activity (inbox : list recv) st :
  loop_frame ws st (snd (command_loop ws uid session inbox st)).
Proof.
  revert st. induction inbox as [|r inbox IH]; intros st.
  - apply loop_frame_refl.
  - cbn [command_loop]. unfold bind.
    pose proof (follows_iteration r st) as Hi.
    destruct (iteration ws uid session r st) as [[[]|e|] st1]; simpl in *;
      try exact Hi.
    eapply loop_frame_trans; [exact Hi | apply IH].
Qed.

End LoopFrame.

(** * Further properties of the upstream pump *)

Lemma handler_frame_refl ws st : handler_frame ws st st.
Proof. now repeat split. Qed.

Lemma handler_frame_trans ws st1 st2 st3 :
  handler_frame ws st1 st2 -> handler_frame ws st2 st3 ->
  handler_frame ws st1 st3.
Proof.
  intros (Hs & Ha & Ht & Hw & Hc) (Hs' & Ha' & Ht' & Hw' & Hc').
  repeat split; try congruence.
  intros ws' Hne. rewrite Hw' by exact Hne. now apply Hw.
Qed.

Lemma message_count_best_effort m g :
  message_count (best_effort m g) = message_count g.
Proof.
  unfold best_effort. destruct (not_connected g); [reflexivity|].
  destruct (websocket g) as [u|]; [|reflexivity].
  destruct (up_send_fault u); [reflexivity|]. now destruct (up_closed u).
Qed.

Section HandlerFrame.
Context {P : Pydantic}.
Variable ws : nat.

Lemma handler_send_json m : follows (handler_frame ws) (send_json ws m).
Proof.
  intros st. unfold send_json.
  destruct (sockets st !! ws) as [w|]; [|apply handler_frame_refl].
  destruct (ws_fault w); [apply handler_frame_refl|].
  destruct (ws_state w); try apply handler_frame_refl.
  repeat split. intros ws' Hne. simpl. now rewrite lookup_insert_ne.
Qed.

Lemma handler_datetime_now : follows (handler_frame ws) datetime_now.
Proof. intros st. now repeat split. Qed.

Lemma handler__send_function_response call_id result :
  follows (handler_frame ws) (_send_function_response call_id result).
Proof.
  intros st. rewrite _send_function_response_spec. repeat split.
  simpl. apply message_count_best_effort.
Qed.

#[local] Hint Resolve handler_send_json handler_datetime_now
  handler__send_function_response : follows.

Lemma handler__handle_gemini_message data :
  follows (handler_frame ws) (_handle_gemini_message data ws).
Proof.
  unfold _handle_gemini_message, handle_part, handle_func_call,
    _handle_shopping_list_update.
  repeat follows_step (handler_frame_refl ws) (handler_frame_trans ws).
Qed.

(** One message: counted once, handled within the frame, never raising. *)
Lemma on_message_counts message st :
  exists st',
    on_message ws message st = (Ok tt, st')
    /\ handler_frame ws (set_gemini_service g_count st) st'.
Proof.
  destruct (on_message_returns ws message st) as (st' & Hrun & _).
  exists st'. split; [exact Hrun|].
  revert Hrun. unfold on_message, bind at 1, modify.
  assert (follows (handler_frame ws)
            (try_except
               (data <- lift (json_loads message) ;;
                _handle_gemini_message data ws)
               (fun _ => ret tt))) as Hf.
  { pose proof handler__handle_gemini_message.
    repeat follows_step (handler_frame_refl ws) (handler_frame_trans ws). }
  specialize (Hf (set_gemini_service g_count st)).
  intros Hrun. rewrite Hrun in Hf. exact Hf.
Qed.

Lemma receive_loop_counts frames st :
  exists st',
    (forall fin,
       receive_loop ws frames fin st
       = (match fin with
          | StillOpen => Blocked
          | Exhausted => Ok tt
          | Raises e => Raise e
          end, st'))
    /\ sessions st' = sessions st
    /\ active_sessions st' = active_sessions st
    /\ gemini_task st' = gemini_task st
    /\ (forall ws', ws' <> ws -> sockets st' !! ws' = sockets st !! ws')
    /\ message_count (gemini_service st')
       = message_count (gemini_service st) + length frames.
Proof.
  revert st. induction frames as [|f frames IH]; intros st.
  - exists st. split; [intros []; reflexivity|].
    repeat split. simpl. lia.
  - destruct (on_message_counts f st)
      as (st1 & H1 & Hs1 & Ha1 & Ht1 & Hw1 & Hc1).
    destruct (IH st1) as (st' & Hrun & Hs & Ha & Ht & Hw & Hc).
    exists st'. split; [|split; [|split; [|split; [|split]]]].
    + intros fin. cbn [receive_loop]. unfold bind. rewrite H1. apply Hrun.
    + now rewrite Hs, Hs1.
    + now rewrite Ha, Ha1.
    + now rewrite Ht, Ht1.
    + intros ws' Hne. rewrite Hw by exact Hne. now apply Hw1.
    + rewrite Hc, Hc1. simpl. lia.
Qed.

(** However the iteration over the upstream connection ends, the pump
    itself does not raise.  When the iteration raises, whatever the
    exception, the pump returns with the link marked as not connected; when
    the iterator is exhausted it returns and leaves the mark as it is;
    without an upstream connection it returns at once with the link marked
    as not connected and no frame consumed. *)
Theorem pump_ends_quietly (frames : list frame) (fin : stream_end) st :
  exists st1,
    receive_loop ws frames Exhausted st = (Ok tt, st1)
    /\ listen_for_responses ws frames fin st
       = match websocket (gemini_service st), fin with
         | None, _ =>
             (Ok tt, set_gemini_service (g_set_is_connected false) st)
         | Some _, StillOpen => (Blocked, st1)
         | Some _, Exhausted => (Ok tt, st1)
         | Some _, Raises _ =>
             (Ok tt, set_gemini_service (g_set_is_connected false) st1)
         end.
Proof.
  destruct (receive_loop_counts frames st) as (st1 & Hrun & _).
  exists st1. split; [apply (Hrun Exhausted)|].
  unfold listen_for_responses, try_except, bind, get_state.
  destruct (websocket (gemini_service st)) as [u|] eqn:Hw.
  - rewrite bool_decide_eq_true_2 by (now eexists).
    rewrite Hrun. now destruct fin.
  - rewrite bool_decide_eq_false_2 by (intros [x Hx]; discriminate).
    reflexivity.
Qed.

(** Whatever the upstream sends and however the stream ends, the pump
    leaves the sessions, the table, the task handle and the sockets of all
    other clients as they are. *)
Theorem pump_writes_only_to_its_client
    (frames : list frame) (fin : stream_end) st :
  sessions (snd (listen_for_responses ws frames fin st)) = sessions st
  /\ active_sessions (snd (listen_for_responses ws frames fin st))
     = active_sessions st
  /\ gemini_task (snd (listen_for_responses ws frames fin st))
     = gemini_task st
  /\ forall ws', ws' <> ws ->
       sockets (snd (listen_for_responses ws frames fin st)) !! ws'
       = sockets st !! ws'.
Proof.
  destruct (pump_ends_quietly frames fin st) as (st1' & H1 & ->).
  destruct (receive_loop_counts frames st)
    as (st1 & Hrun & Hs & Ha & Ht & Hw & _).
  rewrite (Hrun Exhausted) in H1. injection H1 as <-.
  destruct (websocket (gemini_service st)); [destruct fin|];
    now repeat split.
Qed.

(** With an upstream connection the pump counts every frame it is given,
    parseable or not. *)
Theorem pump_counts_every_frame (frames : list frame) (fin : stream_end) st :
  is_Some (websocket (gemini_service st)) ->
  message_count (gemini_service (snd (listen_for_responses ws frames fin st)))
  = message_count (gemini_service st) + length frames.
Proof.
  intros [u Hu].
  destruct (pump_ends_quietly frames fin st) as (st1' & H1 & ->).
  destruct (receive_loop_counts frames st)
    as (st1 & Hrun & _ & _ & _ & _ & Hc).
  rewrite (Hrun Exhausted) in H1. injection H1 as <-.
  rewrite Hu. now destruct fin.
Qed.

(** A frame with a truthy [setupComplete] is answered with the status
    "listening" and nothing else: the rest of the frame, server content
    or tool calls, is not looked at. *)
Theorem setup_complete_reports_listening
    (d : list (string * json)) (v : json) st :
  ready st ws ->
  assoc "setupComplete" d = Some v ->
  truthy v = true ->
  on_message ws (Payload (JDict d)) st
  = (Ok tt, deliver ws (Status "listening" "Gemini Live API ready")
              (set_gemini_service g_count st))
  /\ upstream_sent
       (deliver ws (Status "listening" "Gemini Live API ready")
          (set_gemini_service g_count st))
     = upstream_sent st.
Proof.
  intros Hr Hd Hv. split; [|reflexivity].
  unfold on_message, _handle_gemini_message. run_m. rewrite Hd. run_m.
  rewrite Hv. rewrite send_json_ready by exact Hr. reflexivity.
Qed.

(** The parts of one server content are sent in their order: each part
    with a text gives one transcript, a part without text gives none. *)
Lemma parts_in_order (ps : list (list (string * json))) st :
  ready st ws ->
  exists st',
    for_each (map JDict ps) (handle_part ws) st = (Ok tt, st')
    /\ ready st' ws
    /\ client_sent st' ws
       = client_sent st ws
         ++ map (fun t => Transcript t false) (omap (assoc "text") ps)
    /\ gemini_service st' = gemini_service st.
Proof.
  revert st. induction ps as [|p ps IH]; intros st Hr.
  - exists st. simpl. rewrite app_nil_r. now repeat split.
  - cbn [map for_each omap]. unfold handle_part at 1. run_m.
    destruct (assoc "text" p) as [t|] eqn:Ht; run_m.
    + rewrite send_json_ready by exact Hr. run_m.
      destruct (IH (deliver ws (Transcript t false) st))
        as (st' & Hrun & Hr' & Hsent & Hg); [now apply ready_deliver|].
      exists st'. rewrite Hrun. split; [reflexivity|]. split; [exact Hr'|].
      split; [|exact Hg].
      rewrite Hsent, client_sent_deliver by exact Hr.
      now rewrite <- app_assoc.
    + destruct (IH st Hr) as (st' & Hrun & Hr' & Hsent & Hg).
      exists st'. rewrite Hrun. now repeat split.
Qed.

(** A server content frame without setup mark and tool call sends the
    texts of its parts to the client as transcripts, in the order of the
    parts, skipping the parts that have no text; nothing goes upstream. *)
Theorem text_parts_become_transcripts
    (d c : list (string * json)) (ps : list (list (string * json))) st :
  ready st ws ->
  truthy (default JNull (assoc "setupComplete" d)) = false ->
  assoc "serverContent" d = Some (JDict c) ->
  assoc "parts" c = Some (JList (map JDict ps)) ->
  assoc "toolCall" d = None ->
  exists st',
    on_message ws (Payload (JDict d)) st = (Ok tt, st')
    /\ client_sent st' ws
       = client_sent st ws
         ++ map (fun t => Transcript t false) (omap (assoc "text") ps)
    /\ upstream_sent st' = upstream_sent st.
Proof.
  intros Hr Hsetup Hc Hp Hcall.
  destruct (parts_in_order ps (set_gemini_service g_count st) Hr)
    as (st' & Hrun & Hr' & Hsent & Hg).
  exists st'. split; [|split; [exact Hsent|]].
  - unfold on_message, _handle_gemini_message. run_m. rewrite Hsetup.
    run_m. rewrite Hc. run_m. rewrite Hp. run_m. rewrite Hrun. run_m.
    rewrite Hcall. reflexivity.
  - unfold upstream_sent. now rewrite Hg.
Qed.

(** With the link up and healthy an [update_shopping_list] call is
    acknowledged exactly once, after the list has gone to the client, with
    the id of the call and the result "success". *)
Theorem update_call_is_acknowledged_with_its_id
    (d a : list (string * json)) elems its c (u : Upstream) st :
  ready st ws ->
  assoc "name" d = Some (JStr "update_shopping_list") ->
  default (JDict []) (assoc "args" d) = JDict a ->
  py_iter (default (JList []) (assoc "items" a)) = Ok elems ->
  items_of elems = Ok its ->
  validate_float (default (JNum default_confidence) (assoc "confidence" a))
  = Some c ->
  is_connected (gemini_service st) = true ->
  websocket (gemini_service st) = Some u ->
  up_send_fault u = None ->
  up_closed u = false ->
  exists st',
    on_message ws (tool_call_frame [JDict d]) st = (Ok tt, st')
    /\ upstream_sent st'
       = upstream_sent st
         ++ [ToolResponse "update_shopping_list"
               (default JNull (assoc "id" d))
               (JDict [("result", JStr "success")])]
    /\ client_sent st' ws
       = client_sent st ws
         ++ [ShoppingListUpdated (list_state its (clock st) c)].
Proof.
  intros Hr Hn Ha Hi Hits Hc Hconn Hw Hf Hcl. eexists. split.
  - apply update_call_step with (a := a) (elems := elems) (its := its)
      (c := c); assumption.
  - split.
    + destruct st as [ac s k cl [w ic mc] t]; simpl in *. subst w ic.
      unfold upstream_sent, best_effort, not_connected; simpl.
      now rewrite Hf, Hcl.
    + destruct Hr as (w & Hw' & _). unfold client_sent. simpl.
      now rewrite lookup_alter_eq, Hw'.
Qed.

(** An update in which one item cannot be built is dropped whole: nothing
    is sent to the client, not even the items before the bad one, the call
    is not acknowledged, and the pump goes on. *)
Theorem bad_item_drops_the_update
    (d a : list (string * json)) elems (e : exn) st :
  assoc "name" d = Some (JStr "update_shopping_list") ->
  default (JDict []) (assoc "args" d) = JDict a ->
  py_iter (default (JList []) (assoc "items" a)) = Ok elems ->
  items_of elems = Raise e ->
  on_message ws (tool_call_frame [JDict d]) st
  = (Ok tt, set_gemini_service g_count st)
  /\ client_sent (set_gemini_service g_count st) ws = client_sent st ws
  /\ upstream_sent (set_gemini_service g_count st) = upstream_sent st.
Proof.
  intros Hn Ha Hi Hits. split; [|now split].
  unfold on_message, tool_call_frame, _handle_gemini_message, handle_func_call.
  run_m. rewrite Hn. run_m.
  unfold _handle_shopping_list_update. run_m.
  rewrite Ha. run_m. rewrite Hi. run_m. rewrite Hits. reflexivity.
Qed.

(** An [update_shopping_list] call without arguments, or whose arguments
    have no items, sends the empty list: the client's list is cleared. *)
Theorem update_without_items_clears_the_list
    (d a : list (string * json)) st :
  ready st ws ->
  assoc "name" d = Some (JStr "update_shopping_list") ->
  assoc "args" d = None \/ assoc "args" d = Some (JDict a) ->
  (assoc "args" d = Some (JDict a) ->
   assoc "items" a = None /\ assoc "confidence" a = None) ->
  exists st',
    on_message ws (tool_call_frame [JDict d]) st = (Ok tt, st')
    /\ client_sent st' ws
       = client_sent st ws
         ++ [ShoppingListUpdated (list_state [] (clock st) (8 # 10))].
Proof.
  intros Hr Hn Hargs Hitems. eexists. split.
  - destruct Hargs as [Hnone|Hsome].
    + apply update_call_step with (a := []) (elems := []) (its := [])
        (c := 8 # 10); try assumption; try reflexivity.
      * now rewrite Hnone.
      * now apply validate_float_num.
    + destruct (Hitems Hsome) as [Hi Hc].
      apply update_call_step with (a := a) (elems := []) (its := [])
        (c := 8 # 10); try assumption; try reflexivity.
      * now rewrite Hsome.
      * now rewrite Hi.
      * rewrite Hc. now apply validate_float_num.
  - destruct Hr as (w & Hw' & _). unfold client_sent. simpl.
    now rewrite lookup_alter_eq, Hw'.
Qed.

End HandlerFrame.

(** ** The pump after a malformed frame *)

Lemma sent_grows_refl ws st : sent_grows ws st st.
Proof. exists []. now rewrite app_nil_r. Qed.

Lemma sent_grows_trans ws st1 st2 st3 :
  sent_grows ws st1 st2 -> sent_grows ws st2 st3 -> sent_grows ws st1 st3.
Proof.
  intros [l1 H1] [l2 H2]. exists (l1 ++ l2). now rewrite H2, H1, app_assoc.
Qed.

Section PumpSurvives.
Context {P : Pydantic}.
Variable ws : nat.

Lemma grows_send_json m : follows (sent_grows ws) (send_json ws m).
Proof.
  intros st. unfold send_json.
  destruct (sockets st !! ws) as [w|] eqn:Hw; [|apply sent_grows_refl].
  destruct (ws_fault w); [apply sent_grows_refl|].
  destruct (ws_state w); try apply sent_grows_refl.
  exists [m]. unfold client_sent. simpl. now rewrite lookup_insert_eq, Hw.
Qed.

Lemma grows_datetime_now : follows (sent_grows ws) datetime_now.
Proof. intros st. apply (sent_grows_refl ws st). Qed.

Lemma grows_modify_gemini f :
  follows (sent_grows ws) (modify (set_gemini_service f)).
Proof. intros st. apply (sent_grows_refl ws st). Qed.

Lemma grows__send_function_response call_id result :
  follows (sent_grows ws) (_send_function_response call_id result).
Proof.
  intros st. rewrite _send_function_response_spec.
  apply (sent_grows_refl ws st).
Qed.

#[local] Hint Resolve grows_send_json grows_datetime_now grows_modify_gemini
  grows__send_function_response : follows.

Lemma grows_on_message message :
  follows (sent_grows ws) (on_message ws message).
Proof.
  unfold on_message, _handle_gemini_message, handle_part, handle_func_call,
    _handle_shopping_list_update.
  repeat follows_step (sent_grows_refl ws) (sent_grows_trans ws).
Qed.

Lemma grows_receive_loop frames fin :
  follows (sent_grows ws) (receive_loop ws frames fin).
Proof.
  induction frames as [|f frames IH]; cbn [receive_loop].
  - destruct fin; intros st; apply sent_grows_refl.
  - apply (follows_bind _ (sent_grows_trans ws));
      [apply grows_on_message | intros _; exact IH].
Qed.

(** C8: an unparseable upstream frame does not end the pump.  With an
    upstream connection and a ready client, whatever frames come before
    and after the malformed one, [listen_for_responses] reads on: it
    counts every frame of the stream, and a text frame that comes after
    the malformed one is sent to the client as a transcript, after what
    the frames before it produced; the pump itself ends only where the
    stream ends, and never with an exception. *)
Theorem malformed_frame_does_not_stop_pump
    (pre mid post : list frame) (t : string) (fin : stream_end) st :
  ready st ws ->
  is_Some (websocket (gemini_service st)) ->
  exists st1 st' l,
    listen_for_responses ws (pre ++ Unparseable :: mid) Exhausted st
    = (Ok tt, st1)
    /\ listen_for_responses ws
         (pre ++ Unparseable :: mid ++ text_frame t :: post) fin st
       = (match fin with StillOpen => Blocked | _ => Ok tt end, st')
    /\ client_sent st' ws
       = client_sent st1 ws ++ Transcript (JStr t) false :: l
    /\ message_count (gemini_service st')
       = message_count (gemini_service st)
         + length (pre ++ Unparseable :: mid ++ text_frame t :: post).
Proof.
  intros Hr [u Hu].
  destruct (receive_loop_survives_malformed ws pre mid post t Exhausted st Hr)
    as (st1 & st2 & H1 & Hall & Hsent & _ & _).
  destruct (receive_loop_counts ws
              (pre ++ Unparseable :: mid ++ text_frame t :: post) st)
    as (st3 & Hrun & _ & _ & _ & _ & Hcount).
  pose proof (grows_receive_loop post Exhausted st2) as [l Hl].
  rewrite <- Hall, (Hrun Exhausted) in Hl. simpl in Hl.
  exists st1,
    (match fin with
     | Raises _ => set_gemini_service (g_set_is_connected false) st3
     | _ => st3
     end), l.
  split; [|split; [|split]].
  - unfold listen_for_responses, try_except, bind, get_state.
    rewrite Hu, bool_decide_eq_true_2 by (now eexists). now rewrite H1.
  - unfold listen_for_responses, try_except, bind, get_state.
    rewrite Hu, bool_decide_eq_true_2 by (now eexists).
    rewrite (Hrun fin). now destruct fin.
  - assert (client_sent st3 ws
            = client_sent st1 ws ++ Transcript (JStr t) false :: l) as Hs3.
    { rewrite Hl, Hsent, <- app_assoc. reflexivity. }
    destruct fin; exact Hs3.
  - destruct fin; exact Hcount.
Qed.

End PumpSurvives.

(** * Further properties of the service and of the endpoint *)

(** [connect] never raises: it returns whether the link is up, and the
    mark [is_connected] agrees with what it returns.  It returns [True]
    exactly when the connection could be opened and the setup frame could
    be sent; the setup frame is then the one frame sent.  When the setup
    frame could not be sent the opened connection is kept. *)
Theorem connect_never_raises (dial : res Upstream) st :
  dial <> Blocked ->
  exists b st',
    connect dial st = (Ok b, st')
    /\ is_connected (gemini_service st') = b
    /\ (b = true <->
        exists u, dial = Ok u /\ up_send_fault u = None
                  /\ up_closed u = false)
    /\ (forall u, dial = Ok u ->
        websocket (gemini_service st')
        = Some (if b then up_push Setup u else u))
    /\ (forall e, dial = Raise e ->
        websocket (gemini_service st') = websocket (gemini_service st))
    /\ active_sessions st' = active_sessions st
    /\ sessions st' = sessions st
    /\ sockets st' = sockets st.
Proof.
  intros Hd. destruct dial as [u|e|]; [| |now contradict Hd];
    unfold connect, _send_setup_message, up_send; run_m.
  - destruct (up_send_fault u) as [e|] eqn:Hf; run_m.
    + eexists false, _. split; [reflexivity|]. split; [reflexivity|].
      split; [|split; [now intros u' [= <-]|now repeat split]].
      split; [discriminate|]. intros (u' & [= <-] & Hf' & _). congruence.
    + destruct (up_closed u) eqn:Hc; run_m.
      * eexists false, _. split; [reflexivity|]. split; [reflexivity|].
        split; [|split; [now intros u' [= <-]|now repeat split]].
        split; [discriminate|]. intros (u' & [= <-] & _ & Hc'). congruence.
      * eexists true, _. split; [reflexivity|]. split; [reflexivity|].
        split; [|split; [now intros u' [= <-]|now repeat split]].
        split; [|reflexivity]. intros _. now exists u.
  - eexists false, _. split; [reflexivity|]. split; [reflexivity|].
    split; [|split; [discriminate|now repeat split]].
    split; [discriminate|]. intros (u' & Hu & _). discriminate.
Qed.

(** After [disconnect] the service sends nothing more: audio chunks and
    function responses are dropped without touching the state. *)
Theorem nothing_is_sent_after_disconnect st :
  (forall e, close_fault st <> Some (Some e)) ->
  exists st1,
    disconnect st = (Ok tt, st1)
    /\ is_connected (gemini_service st1) = false
    /\ (forall u, websocket (gemini_service st) = Some u ->
        websocket (gemini_service st1) = Some (up_set_closed u))
    /\ (forall audio_data, send_audio_chunk audio_data st1 = (Ok tt, st1))
    /\ (forall call_id result,
        _send_function_response call_id result st1 = (Ok tt, st1)).
Proof.
  intros Hc. destruct st as [a s k c [[u|] ic mc] t];
    unfold close_fault in Hc; simpl in Hc; unfold disconnect, up_close; run_m.
  - destruct (up_close_fault u) as [e|] eqn:Hf;
      [now destruct (Hc e)|].
    run_m. eexists. split; [reflexivity|]. split; [reflexivity|].
    split; [now intros u' [= <-]|]. split.
    + intros audio_data. now rewrite send_audio_chunk_spec.
    + intros call_id result. now rewrite _send_function_response_spec.
  - eexists. split; [reflexivity|]. split; [reflexivity|].
    split; [discriminate|]. split.
    + intros audio_data. now rewrite send_audio_chunk_spec.
    + intros call_id result. now rewrite _send_function_response_spec.
Qed.

Lemma ready_created ws uid w st :
  sockets st !! ws = Some w -> ws_fault w = None ->
  ready (created ws uid w st) ws.
Proof.
  intros Hw Hf. exists (ws_set_state Connected w). simpl.
  rewrite lookup_insert_eq. now repeat split.
Qed.

(** When the upstream connection cannot be opened the endpoint never
    enters its loop: whatever the client has sent, it gets exactly one
    error message, no task is scheduled, the session is taken out of the
    table again and the endpoint returns. *)
Theorem failed_handshake_is_reported {P : Pydantic}
    (ws : nat) (uid : string) (w : WebSocket) (e : exn) st :
  sockets st !! ws = Some w ->
  ws_fault w = None ->
  ws_state w = Connecting ->
  exists st',
    (forall inbox, websocket_endpoint ws uid (Raise e) inbox st = (Ok tt, st'))
    /\ client_sent st' ws
       = ws_sent w ++ [Error (Literal "Failed to connect to Gemini Live API")]
    /\ active_sessions st' = delete uid (active_sessions st)
    /\ gemini_task st' = NoTask
    /\ gemini_service st' = new_GeminiLiveService.
Proof.
  intros Hw Hf Hs. eexists. split; [|split; [|split; [|split]]].
  - intros inbox. unfold websocket_endpoint.
    rewrite (bind_ok _ _ _ _ _ (create_session_spec ws uid w st Hw Hf Hs)).
    unfold serve, connect, try_finally. run_m.
    rewrite send_json_ready by (now apply ready_created).
    unfold cleanup, disconnect. run_m.
    rewrite lookup_insert_eq. run_m. reflexivity.
  - unfold client_sent. simpl. rewrite lookup_alter_eq, lookup_insert_eq.
    reflexivity.
  - simpl. now rewrite delete_insert_eq.
  - reflexivity.
  - reflexivity.
Qed.

(** When the client connection cannot be accepted the endpoint raises
    before anything is set up: no session is created and nothing is
    registered, so there is nothing to clean up. *)
Theorem refused_accept_registers_nothing {P : Pydantic}
    (ws : nat) (uid : string) (dial : res Upstream) (inbox : list recv) st :
  (forall w, sockets st !! ws = Some w -> ws_fault w = None ->
             ws_state w <> Connecting) ->
  exists e, websocket_endpoint ws uid dial inbox st = (Raise e, st).
Proof.
  intros Hn. unfold websocket_endpoint, create_session, accept. run_m.
  destruct (sockets st !! ws) as [w|] eqn:Hw; [|now eexists].
  destruct (ws_fault w) as [e|] eqn:Hf; [now eexists|].
  specialize (Hn w eq_refl Hf).
  destruct (ws_state w); [now contradict Hn| |]; now eexists.
Qed.

(** * Further properties of the session table *)

(** Terminating an identity that is not in the table raises the 404
    error and changes nothing. *)
Theorem terminate_missing_session (uid : string) st :
  active_sessions st !! uid = None ->
  terminate_session uid st = (Raise (HTTPException 404), st).
Proof.
  intros Hu. unfold terminate_session. run_m. now rewrite Hu.
Qed.

(** Terminating a registered session closes its client socket and takes
    its entry out of the table; the other entries, the other sockets and
    the session objects are left as they are, and the client of the
    closed socket can no longer be written to. *)
Theorem terminate_closes_and_unregisters
    (uid : string) (ref ws : nat) (s : UserSession) (w : WebSocket) st :
  active_sessions st !! uid = Some ref ->
  sessions st !! ref = Some s ->
  us_websocket s = Some ws ->
  sockets st !! ws = Some w ->
  ws_fault w = None ->
  ws_state w <> Disconnected ->
  exists st',
    terminate_session uid st = (Ok tt, st')
    /\ active_sessions st' = delete uid (active_sessions st)
    /\ sockets st' = <[ws := ws_set_state Disconnected w]> (sockets st)
    /\ sessions st' = sessions st
    /\ (forall m, send_json ws m st' = (Raise RuntimeError, st')).
Proof.
  intros Hu Hs Hws Hw Hf Hst. eexists. split.
  - unfold terminate_session, ws_close. run_m. rewrite Hu, Hs, Hws. run_m.
    rewrite Hw, Hf.
    destruct (ws_state w) eqn:E;
      [reflexivity | reflexivity | exfalso; now apply Hst].
  - split; [reflexivity|]. split; [reflexivity|]. split; [reflexivity|].
    intros m. unfold send_json. simpl. rewrite lookup_insert_eq. simpl.
    now rewrite Hf.
Qed.

(** When closing the client socket raises, [terminate_session] raises the
    same exception and the entry stays in the table. *)
Theorem terminate_keeps_entry_when_close_fails
    (uid : string) (ref ws : nat) (s : UserSession) (w : WebSocket)
    (e : exn) st :
  active_sessions st !! uid = Some ref ->
  sessions st !! ref = Some s ->
  us_websocket s = Some ws ->
  sockets st !! ws = Some w ->
  ws_fault w = Some e \/ (ws_fault w = None /\ ws_state w = Disconnected
                          /\ e = RuntimeError) ->
  terminate_session uid st = (Raise e, st).
Proof.
  intros Hu Hs Hws Hw Hf.
  unfold terminate_session, ws_close. run_m. rewrite Hu, Hs, Hws. run_m.
  rewrite Hw. destruct Hf as [->|(-> & -> & ->)]; reflexivity.
Qed.

(** A session is created under a reference no session object has yet:
    the session objects there are, the entries of the other identities
    and the other sockets are left as they are.  The new object is
    connected, holds the accepted socket and an empty list. *)
Theorem create_session_keeps_the_others
    (ws : nat) (uid : string) (w : WebSocket) st :
  sockets st !! ws = Some w ->
  ws_fault w = None ->
  ws_state w = Connecting ->
  exists ref st',
    create_session ws uid st = (Ok ref, st')
    /\ sessions st !! ref = None
    /\ (forall r s, sessions st !! r = Some s -> sessions st' !! r = Some s)
    /\ (forall uid', uid' <> uid ->
        active_sessions st' !! uid' = active_sessions st !! uid')
    /\ (forall ws', ws' <> ws -> sockets st' !! ws' = sockets st !! ws')
    /\ active_sessions st' !! uid = Some ref
    /\ exists s,
         sessions st' !! ref = Some s
         /\ user_id s = uid
         /\ us_websocket s = Some ws
         /\ us_is_connected s = true
         /\ items (shopping_list_state s) = []
         /\ created_at s = clock st.
Proof.
  intros Hw Hf Hs. set (ref := fresh (dom (sessions st))).
  assert (sessions st !! ref = None) as Hfresh.
  { apply not_elem_of_dom. apply is_fresh. }
  exists ref, (created ws uid w st).
  split; [now apply create_session_spec|]. split; [exact Hfresh|].
  split; [|split; [|split; [|split]]].
  - intros r s Hr. simpl. fold ref.
    assert (ref <> r) as Hne by (intros ->; congruence).
    now rewrite !lookup_alter_ne, lookup_insert_ne.
  - intros uid' Hne. simpl. now rewrite lookup_insert_ne.
  - intros ws' Hne. simpl. now rewrite lookup_insert_ne.
  - simpl. fold ref. apply lookup_insert_eq.
  - eexists. simpl. fold ref.
    rewrite !lookup_alter_eq, lookup_insert_eq. simpl.
    split; [reflexivity|]. now repeat split.
Qed.

(** The clean-up of a connection deletes the entry of its identity, also
    when the entry is no longer its own: after a second connection under
    the same identity, the end of the first takes the second session out
    of the table although that session is connected and its socket open. *)
Theorem stale_cleanup_unregisters_the_newer_session
    (ws1 ws2 : nat) (uid : string) (w1 w2 : WebSocket) st :
  ws1 <> ws2 ->
  sockets st !! ws1 = Some w1 -> ws_fault w1 = None ->
  ws_state w1 = Connecting ->
  sockets st !! ws2 = Some w2 -> ws_fault w2 = None ->
  ws_state w2 = Connecting ->
  (forall e, close_fault st <> Some (Some e)) ->
  exists s1 s2 st1 st2 st3,
    create_session ws1 uid st = (Ok s1, st1)
    /\ create_session ws2 uid st1 = (Ok s2, st2)
    /\ active_sessions st2 !! uid = Some s2
    /\ cleanup uid st2 = (Ok tt, st3)
    /\ active_sessions st3 !! uid = None
    /\ us_is_connected <$> sessions st3 !! s2 = Some true
    /\ us_websocket <$> sessions st3 !! s2 = Some (Some ws2)
    /\ ws_state <$> sockets st3 !! ws2 = Some Connected.
Proof.
  intros Hne Hw1 Hf1 Hs1 Hw2 Hf2 Hs2 Hc.
  set (st1 := created ws1 uid w1 st).
  assert (sockets st1 !! ws2 = Some w2) as Hw2'.
  { simpl. now rewrite lookup_insert_ne. }
  set (st2 := created ws2 uid w2 st1).
  assert (close_fault st2 = None \/ close_fault st2 = Some None) as Hc2.
  { change (close_fault st2) with (close_fault st).
    destruct (close_fault st) as [[e|]|];
      [now destruct (Hc e)|now right|now left]. }
  destruct (cleanup_returns uid st2 Hc2) as (st3 & Hcl & Ha3 & _ & _ & Hso3).
  assert (sessions st3 = sessions st2) as Hse3.
  { revert Hcl. unfold cleanup, disconnect, up_close. clear.
    destruct st2 as [a s k c [[u|] ic mc] t]; run_m.
    - destruct (up_close_fault u); run_m; [discriminate|].
      destruct (bool_decide _); run_m; now intros [= <-].
    - destruct (bool_decide _); run_m; now intros [= <-]. }
  exists (fresh (dom (sessions st))), (fresh (dom (sessions st1))),
    st1, st2, st3.
  split; [now apply create_session_spec|].
  split; [now apply create_session_spec|].
  split; [simpl; apply lookup_insert_eq|].
  split; [exact Hcl|].
  split; [rewrite Ha3; apply lookup_delete_eq|].
  rewrite Hse3, Hso3. simpl.
  rewrite !lookup_alter_eq, !lookup_insert_eq. now repeat split.
Qed.


(** * The environment of the local runner *)

Lemma set_defaults_lookup l (environ : gmap string string) k :
  set_defaults l environ !! k
  = match environ !! k with
    | Some v => Some v
    | None => (list_to_map l : gmap string string) !! k
    end.
Proof.
  revert environ. induction l as [|[key value] l IH]; intros environ.
  - simpl. rewrite lookup_empty. now destruct (environ !! k).
  - cbn [set_defaults list_to_map]. rewrite IH. simpl.
    destruct (environ !! key) as [x|] eqn:Hkey.
    + rewrite bool_decide_eq_true_2 by (now eexists).
      destruct (environ !! k) eqn:Hk; [reflexivity|].
      rewrite lookup_insert_ne by (intros ->; congruence). reflexivity.
    + rewrite bool_decide_eq_false_2 by (intros [y Hy]; discriminate).
      destruct (decide (key = k)) as [->|Hne].
      * now rewrite !lookup_insert_eq, Hkey.
      * rewrite !lookup_insert_ne by exact Hne. reflexivity.
Qed.

Arguments set_defaults : simpl never.

Lemma no_api_key_set_defaults (environ : gmap string string) :
  no_api_key (set_defaults defaults environ) = no_api_key environ.
Proof.
  unfold no_api_key. rewrite set_defaults_lookup.
  destruct (environ !! "GEMINI_API_KEY"); reflexivity.
Qed.

Lemma defaults_lookup k v :
  In (k, v) defaults ->
  (list_to_map defaults : gmap string string) !! k = Some v.
Proof.
  simpl. intros [H|[H|[H|[H|[H|[]]]]]]; injection H as <- <-;
    vm_compute; reflexivity.
Qed.

(** [setup_environment] never overwrites a variable that is set (an empty
    API key counts as not set). *)
Theorem setup_keeps_what_is_set
    (api_key : string) (environ environ' : gmap string string) k v :
  environ !! k = Some v ->
  (k = "GEMINI_API_KEY" -> v <> "") ->
  setup_environment api_key environ = Some environ' ->
  environ' !! k = Some v.
Proof.
  intros Hk Hv. unfold setup_environment.
  rewrite no_api_key_set_defaults.
  destruct (no_api_key environ) eqn:Hno.
  - destruct (String.eqb api_key ""); [discriminate|]. simpl.
    intros [= <-].
    assert (k <> "GEMINI_API_KEY") as Hne.
    { intros ->. unfold no_api_key in Hno. rewrite Hk in Hno.
      apply String.eqb_eq in Hno. now apply Hv. }
    rewrite lookup_insert_ne by (intros E; now apply Hne).
    now rewrite set_defaults_lookup, Hk.
  - intros [= <-]. now rewrite set_defaults_lookup, Hk.
Qed.

(** When [setup_environment] returns, every default that was not set has
    its default value and the API key is set and not empty. *)
Theorem setup_completes_the_environment
    (api_key : string) (environ environ' : gmap string string) :
  setup_environment api_key environ = Some environ' ->
  (forall k v, In (k, v) defaults -> environ !! k = None ->
               environ' !! k = Some v)
  /\ (forall k v, In (k, v) defaults -> is_Some (environ' !! k))
  /\ exists key, environ' !! "GEMINI_API_KEY" = Some key /\ key <> "".
Proof.
  unfold setup_environment. rewrite no_api_key_set_defaults.
  assert (forall k v, In (k, v) defaults -> k <> "GEMINI_API_KEY") as Hd.
  { simpl. intros k v [H|[H|[H|[H|[H|[]]]]]]; injection H as <- <-;
      discriminate. }
  assert (forall k v, In (k, v) defaults ->
            set_defaults defaults environ !! k
            = Some (default v (environ !! k))) as Hl.
  { intros k v Hin. rewrite set_defaults_lookup.
    destruct (environ !! k); [reflexivity|]. now apply defaults_lookup. }
  destruct (no_api_key environ) eqn:Hno.
  - destruct (String.eqb_spec api_key "") as [->|Hne]; [discriminate|].
    simpl. intros [= <-]. split; [|split].
    + intros k v Hin Hk.
      rewrite lookup_insert_ne by (intros E; symmetry in E; now apply (Hd k v)).
      rewrite (Hl k v Hin), Hk. reflexivity.
    + intros k v Hin.
      rewrite lookup_insert_ne by (intros E; symmetry in E; now apply (Hd k v)).
      rewrite (Hl k v Hin). now eexists.
    + exists api_key. now rewrite lookup_insert_eq.
  - intros [= <-]. split; [|split].
    + intros k v Hin Hk. rewrite (Hl k v Hin), Hk. reflexivity.
    + intros k v Hin. rewrite (Hl k v Hin). now eexists.
    + unfold no_api_key in Hno. rewrite set_defaults_lookup.
      destruct (environ !! "GEMINI_API_KEY") as [key|]; [|discriminate].
      exists key. split; [reflexivity|]. now apply String.eqb_neq.
Qed.

(** [setup_environment] exits exactly when no API key is set and the user
    types none. *)
Theorem setup_exits_without_api_key
    (api_key : string) (environ : gmap string string) :
  setup_environment api_key environ = None
  <-> api_key = ""
      /\ (environ !! "GEMINI_API_KEY" = None
          \/ environ !! "GEMINI_API_KEY" = Some "").
Proof.
  unfold setup_environment. rewrite no_api_key_set_defaults.
  unfold no_api_key.
  destruct (environ !! "GEMINI_API_KEY") as [key|].
  - destruct (String.eqb_spec key "") as [->|Hk].
    + destruct (String.eqb_spec api_key "") as [->|Ha]; simpl.
      * split; [intros _; split; [reflexivity|now right]|reflexivity].
      * split; [discriminate|]. intros [Hc _]. now contradict Ha.
    + split; [discriminate|]. intros [_ [H|H]]; [discriminate|].
      injection H as H. now contradict Hk.
  - destruct (String.eqb_spec api_key "") as [->|Ha]; simpl.
    + split; [intros _; split; [reflexivity|now left]|reflexivity].
    + split; [discriminate|]. intros [Hc _]. now contradict Ha.
Qed.

(** Setting up an environment that has been set up changes nothing and
    asks for nothing. *)
Theorem setup_is_idempotent
    (api_key api_key' : string) (environ environ' : gmap string string) :
  setup_environment api_key environ = Some environ' ->
  setup_environment api_key' environ' = Some environ'.
Proof.
  intros Hs.
  destruct (setup_completes_the_environment _ _ _ Hs)
    as (_ & Hall & key & Hkey & Hne).
  unfold setup_environment. rewrite no_api_key_set_defaults.
  unfold no_api_key. rewrite Hkey.
  apply String.eqb_neq in Hne. rewrite Hne. f_equal.
  apply map_eq. intros k. rewrite set_defaults_lookup.
  destruct (environ' !! k) eqn:Hk; [reflexivity|].
  destruct ((list_to_map defaults : gmap string string) !! k) as [v|] eqn:Hd;
    [|reflexivity].
  apply elem_of_list_to_map_2 in Hd. apply list_elem_of_In in Hd.
  destruct (Hall k v Hd) as [x Hx]. congruence.
Qed.

(** * The further properties at concrete inputs *)

Lemma stop_session_witness :
  ready active 0
  /\ assoc "type" [("type", JStr "stop_session")] = Some (JStr "stop_session")
  /\ command_loop (P := strict_pydantic) 0 "user" 0
       (Recv (JDict [("type", JStr "stop_session")])
        :: [Recv (JDict [("type", JStr "ping")])]) active
     = (Ok tt, deliver 0 (SessionStopped "Session stopped") (stamped 0 active))
  /\ client_sent
       (deliver 0 (SessionStopped "Session stopped") (stamped 0 active)) 0
     = client_sent active 0 ++ [SessionStopped "Session stopped"].
Proof.
  exact (conj ready_active (conj eq_refl
    (stop_session_ends_loop (P := strict_pydantic) 0 "user" 0
       [("type", JStr "stop_session")]
       [Recv (JDict [("type", JStr "ping")])] active ready_active eq_refl))).
Defined.

Lemma start_session_witness :
  ready active 0
  /\ assoc "type" [("type", JStr "start_session")]
     = Some (JStr "start_session")
  /\ exists st',
       command_loop (P := strict_pydantic) 0 "user" 0
         (replicate 3 (Recv (JDict [("type", JStr "start_session")]))) active
       = (Blocked, st')
       /\ ready st' 0
       /\ client_sent st' 0
          = client_sent active 0
            ++ replicate 3
                 (SessionStarted "user" "Session started successfully")
       /\ active_sessions st' = active_sessions active
       /\ gemini_service st' = gemini_service active
       /\ gemini_task st' = gemini_task active.
Proof.
  exact (conj ready_active (conj eq_refl
    (start_session_repeats (P := strict_pydantic) 0 "user" 0
       [("type", JStr "start_session")] 3 active ready_active eq_refl))).
Defined.

Lemma unknown_command_witness :
  (forall k, In k ["audio_chunk"; "start_session"; "stop_session"; "ping";
                   "test_audio"] ->
             assoc "type" [("type", JStr "hello")] <> Some (JStr k))
  /\ iteration (P := strict_pydantic) 0 "user" 0
       (Recv (JDict [("type", JStr "hello")])) active
     = (Ok Continue, stamped 0 active)
  /\ client_sent (stamped 0 active) 0 = client_sent active 0
  /\ gemini_service (stamped 0 active) = gemini_service active.
Proof.
  assert (forall k, In k ["audio_chunk"; "start_session"; "stop_session";
                          "ping"; "test_audio"] ->
                    assoc "type" [("type", JStr "hello")] <> Some (JStr k))
    as hk.
  { simpl. intros k [<-|[<-|[<-|[<-|[<-|[]]]]]]; discriminate. }
  exact (conj hk
    (unknown_command_is_ignored (P := strict_pydantic) 0 "user" 0
       [("type", JStr "hello")] active hk)).
Defined.

Lemma non_object_message_witness :
  ready active 0
  /\ (forall d, JList [JStr "ping"] <> JDict d)
  /\ iteration (P := strict_pydantic) 0 "user" 0
       (Recv (JList [JStr "ping"])) active
     = (Ok Continue, deliver 0 (Error (StrOf AttributeError)) active).
Proof.
  assert (forall d, JList [JStr "ping"] <> JDict d) as hd
    by (intros d; discriminate).
  exact (conj ready_active (conj hd
    (non_object_message_is_reported (P := strict_pydantic) 0 "user" 0
       (JList [JStr "ping"]) active ready_active hd))).
Defined.

Lemma receive_error_witness :
  ready active 0
  /\ JSONDecodeError <> WebSocketDisconnect
  /\ iteration (P := strict_pydantic) 0 "user" 0
       (RecvRaises JSONDecodeError) active
     = (Ok Continue, deliver 0 (Error (StrOf JSONDecodeError)) active).
Proof.
  assert (JSONDecodeError <> WebSocketDisconnect) as he by discriminate.
  exact (conj ready_active (conj he
    (receive_error_is_reported (P := strict_pydantic) 0 "user" 0
       JSONDecodeError active ready_active he))).
Defined.

Lemma test_audio_witness :
  ready active 0
  /\ assoc "type" [("type", JStr "test_audio")] = Some (JStr "test_audio")
  /\ exists st',
       iteration (P := strict_pydantic) 0 "user" 0
         (Recv (JDict [("type", JStr "test_audio")])) active
       = (Ok Continue, st')
       /\ client_sent st' 0
          = client_sent active 0
            ++ [Transcript
                  (default (JStr "Dodaj mleko do listy")
                     (assoc "text" [("type", JStr "test_audio")])) true;
                ShoppingListUpdated
                  (list_state
                     [{| name := "mleko"; quantity := 1 # 1; unit_ := None;
                         category := "Nabiał" |}]
                     (S (clock active)) (95 # 100))]
       /\ gemini_service st' = gemini_service active
       /\ active_sessions st' = active_sessions active.
Proof.
  exact (conj ready_active (conj eq_refl
    (test_audio_simulates_update (P := strict_pydantic) 0 "user" 0
       [("type", JStr "test_audio")] active ready_active eq_refl))).
Defined.

Lemma audio_forwarded_witness :
  ready active 0
  /\ "abc" <> ""
  /\ is_connected (gemini_service active) = true
  /\ websocket (gemini_service active) = Some (up_push Setup fresh_upstream)
  /\ exists st',
       iteration (P := strict_pydantic) 0 "user" 0
         (Recv (JDict (audio_fields ("abc", JNum (1 # 1))))) active
       = (Ok Continue, st')
       /\ upstream_sent st'
          = upstream_sent active ++ [RealtimeInput (JStr "abc")]
       /\ is_connected (gemini_service st') = true.
Proof.
  assert ("abc" <> "") as hp by discriminate.
  assert (is_connected (gemini_service active) = true) as hc
    by (vm_compute; reflexivity).
  assert (websocket (gemini_service active)
          = Some (up_push Setup fresh_upstream)) as hw
    by (vm_compute; reflexivity).
  exact (conj ready_active (conj hp (conj hc (conj hw
    (audio_forwarded_once (P := strict_pydantic) 0 "user" 0
       (audio_fields ("abc", JNum (1 # 1))) "abc"
       (up_push Setup fresh_upstream) active
       ready_active eq_refl eq_refl hp hc hw eq_refl eq_refl))))).
Defined.

Lemma pump_counts_witness :
  is_Some (websocket (gemini_service active))
  /\ message_count
       (gemini_service
          (snd (listen_for_responses (P := strict_pydantic) 0
                  [Unparseable; text_frame "hello"] StillOpen active)))
     = message_count (gemini_service active) + 2.
Proof.
  assert (is_Some (websocket (gemini_service active))) as hw
    by (eexists; vm_compute; reflexivity).
  exact (conj hw
    (pump_counts_every_frame (P := strict_pydantic) 0
       [Unparseable; text_frame "hello"] StillOpen active hw)).
Defined.

Lemma setup_complete_witness :
  ready active 0
  /\ truthy (JBool true) = true
  /\ on_message (P := strict_pydantic) 0
       (Payload (JDict [("setupComplete", JBool true);
                        ("toolCall", JDict [])])) active
     = (Ok tt, deliver 0 (Status "listening" "Gemini Live API ready")
                 (set_gemini_service g_count active))
  /\ upstream_sent
       (deliver 0 (Status "listening" "Gemini Live API ready")
          (set_gemini_service g_count active))
     = upstream_sent active.
Proof.
  exact (conj ready_active (conj eq_refl
    (setup_complete_reports_listening (P := strict_pydantic) 0
       [("setupComplete", JBool true); ("toolCall", JDict [])]
       (JBool true) active ready_active eq_refl eq_refl))).
Defined.

Lemma text_parts_witness :
  ready active 0
  /\ exists st',
       on_message (P := strict_pydantic) 0
         (Payload (JDict [("serverContent",
            JDict [("parts",
              JList (map JDict [[("text", JStr "one")]; [("other", JNull)];
                                [("text", JStr "two")]]))])])) active
       = (Ok tt, st')
       /\ client_sent st' 0
          = client_sent active 0
            ++ map (fun t => Transcript t false)
                 (omap (assoc "text")
                    [[("text", JStr "one")]; [("other", JNull)];
                     [("text", JStr "two")]])
       /\ upstream_sent st' = upstream_sent active.
Proof.
  exact (conj ready_active
    (text_parts_become_transcripts (P := strict_pydantic) 0
       [("serverContent",
         JDict [("parts",
           JList (map JDict [[("text", JStr "one")]; [("other", JNull)];
                             [("text", JStr "two")]]))])]
       [("parts",
         JList (map JDict [[("text", JStr "one")]; [("other", JNull)];
                           [("text", JStr "two")]]))]
       [[("text", JStr "one")]; [("other", JNull)]; [("text", JStr "two")]]
       active ready_active eq_refl eq_refl eq_refl eq_refl)).
Defined.

Lemma update_call_acknowledged_witness :
  ready active 0
  /\ items_of (P := strict_pydantic) first_call_items = Ok first_list
  /\ is_connected (gemini_service active) = true
  /\ websocket (gemini_service active) = Some (up_push Setup fresh_upstream)
  /\ exists st',
       on_message (P := strict_pydantic) 0
         (tool_call_frame [JDict first_call]) active = (Ok tt, st')
       /\ upstream_sent st'
          = upstream_sent active
            ++ [ToolResponse "update_shopping_list"
                  (default JNull (assoc "id" first_call))
                  (JDict [("result", JStr "success")])]
       /\ client_sent st' 0
          = client_sent active 0
            ++ [ShoppingListUpdated
                  (list_state first_list (clock active) (8 # 10))].
Proof.
  assert (items_of (P := strict_pydantic) first_call_items = Ok first_list)
    as hi by reflexivity.
  assert (is_connected (gemini_service active) = true) as hc
    by (vm_compute; reflexivity).
  assert (websocket (gemini_service active)
          = Some (up_push Setup fresh_upstream)) as hw
    by (vm_compute; reflexivity).
  exact (conj ready_active (conj hi (conj hc (conj hw
    (update_call_is_acknowledged_with_its_id (P := strict_pydantic) 0
       first_call [("items", JList first_call_items)] first_call_items
       first_list (8 # 10) (up_push Setup fresh_upstream) active
       ready_active eq_refl eq_refl eq_refl hi eq_refl hc hw
       eq_refl eq_refl))))).
Defined.

Lemma bad_item_witness :
  items_of (P := strict_pydantic) (first_call_items ++ [JStr "bread"])
  = Raise AttributeError
  /\ on_message (P := strict_pydantic) 0
       (extraction_frame (JStr "call-1")
          (first_call_items ++ [JStr "bread"])) active
     = (Ok tt, set_gemini_service g_count active)
  /\ client_sent (set_gemini_service g_count active) 0 = client_sent active 0
  /\ upstream_sent (set_gemini_service g_count active) = upstream_sent active.
Proof.
  assert (items_of (P := strict_pydantic)
            (first_call_items ++ [JStr "bread"]) = Raise AttributeError)
    as hi by reflexivity.
  exact (conj hi
    (bad_item_drops_the_update (P := strict_pydantic) 0
       [("name", JStr "update_shopping_list"); ("id", JStr "call-1");
        ("args",
         JDict [("items", JList (first_call_items ++ [JStr "bread"]))])]
       [("items", JList (first_call_items ++ [JStr "bread"]))]
       (first_call_items ++ [JStr "bread"]) AttributeError active
       eq_refl eq_refl eq_refl hi)).
Defined.

Lemma update_without_items_witness :
  ready active 0
  /\ exists st',
       on_message (P := strict_pydantic) 0
         (tool_call_frame
            [JDict [("name", JStr "update_shopping_list");
                    ("id", JStr "call-1")]]) active
       = (Ok tt, st')
       /\ client_sent st' 0
          = client_sent active 0
            ++ [ShoppingListUpdated (list_state [] (clock active) (8 # 10))].
Proof.
  exact (conj ready_active
    (update_without_items_clears_the_list (P := strict_pydantic) 0
       [("name", JStr "update_shopping_list"); ("id", JStr "call-1")] []
       active ready_active eq_refl (or_introl eq_refl)
       (fun H => match H in _ = x return
                   match x with Some _ => _ | None => True end
                 with eq_refl => I end))).
Defined.

Lemma connect_witness :
  Ok fresh_upstream <> Blocked
  /\ exists b st',
       connect (Ok fresh_upstream) boot = (Ok b, st')
       /\ is_connected (gemini_service st') = b
       /\ (b = true <->
           exists u, Ok fresh_upstream = Ok u /\ up_send_fault u = None
                     /\ up_closed u = false)
       /\ (forall u, Ok fresh_upstream = Ok u ->
           websocket (gemini_service st')
           = Some (if b then up_push Setup u else u))
       /\ (forall e, Ok fresh_upstream = Raise e ->
           websocket (gemini_service st') = websocket (gemini_service boot))
       /\ active_sessions st' = active_sessions boot
       /\ sessions st' = sessions boot
       /\ sockets st' = sockets boot.
Proof.
  assert (Ok fresh_upstream <> Blocked) as hd by discriminate.
  exact (conj hd (connect_never_raises (Ok fresh_upstream) boot hd)).
Defined.

Lemma disconnect_witness :
  (forall e, close_fault active <> Some (Some e))
  /\ exists st1,
       disconnect active = (Ok tt, st1)
       /\ is_connected (gemini_service st1) = false
       /\ (forall u, websocket (gemini_service active) = Some u ->
           websocket (gemini_service st1) = Some (up_set_closed u))
       /\ (forall audio_data, send_audio_chunk audio_data st1 = (Ok tt, st1))
       /\ (forall call_id result,
           _send_function_response call_id result st1 = (Ok tt, st1)).
Proof.
  assert (forall e, close_fault active <> Some (Some e)) as hc
    by (intros e; vm_compute; discriminate).
  exact (conj hc (nothing_is_sent_after_disconnect active hc)).
Defined.

Lemma failed_handshake_witness :
  sockets boot !! 0 = Some connecting_socket
  /\ exists st',
       (forall inbox,
          websocket_endpoint (P := strict_pydantic) 0 "user" (Raise OSError)
            inbox boot = (Ok tt, st'))
       /\ client_sent st' 0
          = ws_sent connecting_socket
            ++ [Error (Literal "Failed to connect to Gemini Live API")]
       /\ active_sessions st' = delete "user" (active_sessions boot)
       /\ gemini_task st' = NoTask
       /\ gemini_service st' = new_GeminiLiveService.
Proof.
  assert (sockets boot !! 0 = Some connecting_socket) as h0
    by (vm_compute; reflexivity).
  exact (conj h0
    (failed_handshake_is_reported (P := strict_pydantic) 0 "user"
       connecting_socket OSError boot h0 eq_refl eq_refl)).
Defined.

Lemma refused_accept_witness :
  (forall w, sockets active !! 0 = Some w -> ws_fault w = None ->
             ws_state w <> Connecting)
  /\ exists e,
       websocket_endpoint (P := strict_pydantic) 0 "user" (Ok fresh_upstream)
         [stop_session] active = (Raise e, active).
Proof.
  assert (sockets active !! 0 = Some connected_socket) as h0
    by (vm_compute; reflexivity).
  assert (forall w, sockets active !! 0 = Some w -> ws_fault w = None ->
                    ws_state w <> Connecting) as hn.
  { intros w Hw _. rewrite h0 in Hw. injection Hw as <-. discriminate. }
  exact (conj hn
    (refused_accept_registers_nothing (P := strict_pydantic) 0 "user"
       (Ok fresh_upstream) [stop_session] active hn)).
Defined.

Lemma terminate_missing_witness :
  active_sessions active !! "nobody" = None
  /\ terminate_session "nobody" active = (Raise (HTTPException 404), active).
Proof.
  assert (active_sessions active !! "nobody" = None) as hu
    by (vm_compute; reflexivity).
  exact (conj hu (terminate_missing_session "nobody" active hu)).
Defined.

Lemma terminate_witness :
  active_sessions active !! "user" = Some 0
  /\ sessions active !! 0 = Some user_session
  /\ sockets active !! 0 = Some connected_socket
  /\ ws_state connected_socket <> Disconnected
  /\ exists st',
       terminate_session "user" active = (Ok tt, st')
       /\ active_sessions st' = delete "user" (active_sessions active)
       /\ sockets st'
          = <[0 := ws_set_state Disconnected connected_socket]>
              (sockets active)
       /\ sessions st' = sessions active
       /\ (forall m, send_json 0 m st' = (Raise RuntimeError, st')).
Proof.
  assert (active_sessions active !! "user" = Some 0) as hu
    by (vm_compute; reflexivity).
  assert (sessions active !! 0 = Some user_session) as hs
    by (vm_compute; reflexivity).
  assert (sockets active !! 0 = Some connected_socket) as hw
    by (vm_compute; reflexivity).
  assert (ws_state connected_socket <> Disconnected) as hst by discriminate.
  exact (conj hu (conj hs (conj hw (conj hst
    (terminate_closes_and_unregisters "user" 0 0 user_session
       connected_socket active hu hs eq_refl hw eq_refl hst))))).
Defined.

Lemma terminate_failure_witness :
  active_sessions gone !! "user" = Some 0
  /\ sessions gone !! 0 = Some user_session
  /\ sockets gone !! 0
     = Some {| ws_state := Connected; ws_fault := Some OSError;
               ws_sent := [] |}
  /\ terminate_session "user" gone = (Raise OSError, gone).
Proof.
  assert (active_sessions gone !! "user" = Some 0) as hu
    by (vm_compute; reflexivity).
  assert (sessions gone !! 0 = Some user_session) as hs
    by (vm_compute; reflexivity).
  assert (sockets gone !! 0
          = Some {| ws_state := Connected; ws_fault := Some OSError;
                    ws_sent := [] |}) as hw
    by (vm_compute; reflexivity).
  exact (conj hu (conj hs (conj hw
    (terminate_keeps_entry_when_close_fails "user" 0 0 user_session
       {| ws_state := Connected; ws_fault := Some OSError; ws_sent := [] |}
       OSError gone hu hs eq_refl hw (or_introl eq_refl))))).
Defined.

Lemma create_session_witness :
  sockets active !! 1 = Some connecting_socket
  /\ exists ref st',
       create_session 1 "other" active = (Ok ref, st')
       /\ sessions active !! ref = None
       /\ (forall r s, sessions active !! r = Some s ->
           sessions st' !! r = Some s)
       /\ (forall uid', uid' <> "other" ->
           active_sessions st' !! uid' = active_sessions active !! uid')
       /\ (forall ws', ws' <> 1 -> sockets st' !! ws' = sockets active !! ws')
       /\ active_sessions st' !! "other" = Some ref
       /\ exists s,
            sessions st' !! ref = Some s
            /\ user_id s = "other"
            /\ us_websocket s = Some 1
            /\ us_is_connected s = true
            /\ items (shopping_list_state s) = []
            /\ created_at s = clock active.
Proof.
  assert (sockets active !! 1 = Some connecting_socket) as hw
    by (vm_compute; reflexivity).
  exact (conj hw
    (create_session_keeps_the_others 1 "other" connecting_socket active
       hw eq_refl eq_refl)).
Defined.

Lemma stale_cleanup_witness :
  0 <> 1
  /\ sockets boot !! 0 = Some connecting_socket
  /\ sockets boot !! 1 = Some connecting_socket
  /\ (forall e, close_fault boot <> Some (Some e))
  /\ exists s1 s2 st1 st2 st3,
       create_session 0 "user" boot = (Ok s1, st1)
       /\ create_session 1 "user" st1 = (Ok s2, st2)
       /\ active_sessions st2 !! "user" = Some s2
       /\ cleanup "user" st2 = (Ok tt, st3)
       /\ active_sessions st3 !! "user" = None
       /\ us_is_connected <$> sessions st3 !! s2 = Some true
       /\ us_websocket <$> sessions st3 !! s2 = Some (Some 1)
       /\ ws_state <$> sockets st3 !! 1 = Some Connected.
Proof.
  assert (0 <> 1) as hne by discriminate.
  assert (sockets boot !! 0 = Some connecting_socket) as h0
    by (vm_compute; reflexivity).
  assert (sockets boot !! 1 = Some connecting_socket) as h1
    by (vm_compute; reflexivity).
  assert (forall e, close_fault boot <> Some (Some e)) as hc
    by (intros e; discriminate).
  exact (conj hne (conj h0 (conj h1 (conj hc
    (stale_cleanup_unregisters_the_newer_session 0 1 "user"
       connecting_socket connecting_socket boot hne h0 eq_refl eq_refl
       h1 eq_refl eq_refl hc))))).
Defined.

Lemma setup_keeps_witness :
  port_only !! "PORT" = Some "9000"
  /\ ("PORT" = "GEMINI_API_KEY" -> "9000" <> "")
  /\ setup_environment "secret" port_only
     = Some (<["GEMINI_API_KEY" := "secret"]>
               (set_defaults defaults port_only))
  /\ (<["GEMINI_API_KEY" := "secret"]> (set_defaults defaults port_only))
       !! "PORT" = Some "9000".
Proof.
  assert (port_only !! "PORT" = Some "9000") as hk
    by (vm_compute; reflexivity).
  assert ("PORT" = "GEMINI_API_KEY" -> "9000" <> "") as hv
    by (intros _; discriminate).
  assert (setup_environment "secret" port_only
          = Some (<["GEMINI_API_KEY" := "secret"]>
                    (set_defaults defaults port_only))) as hs
    by (vm_compute; reflexivity).
  exact (conj hk (conj hv (conj hs
    (setup_keeps_what_is_set "secret" port_only _ "PORT" "9000" hk hv hs)))).
Defined.

Lemma setup_completes_witness :
  setup_environment "secret" port_only
  = Some (<["GEMINI_API_KEY" := "secret"]> (set_defaults defaults port_only))
  /\ (forall k v, In (k, v) defaults -> port_only !! k = None ->
        (<["GEMINI_API_KEY" := "secret"]> (set_defaults defaults port_only))
          !! k = Some v)
  /\ (forall k v, In (k, v) defaults ->
        is_Some ((<["GEMINI_API_KEY" := "secret"]>
                    (set_defaults defaults port_only)) !! k))
  /\ exists key,
       (<["GEMINI_API_KEY" := "secret"]> (set_defaults defaults port_only))
         !! "GEMINI_API_KEY" = Some key
       /\ key <> "".
Proof.
  assert (setup_environment "secret" port_only
          = Some (<["GEMINI_API_KEY" := "secret"]>
                    (set_defaults defaults port_only))) as hs
    by (vm_compute; reflexivity).
  exact (conj hs
    (setup_completes_the_environment "secret" port_only _ hs)).
Defined.

Lemma setup_idempotent_witness :
  setup_environment "secret" port_only
  = Some (<["GEMINI_API_KEY" := "secret"]> (set_defaults defaults port_only))
  /\ setup_environment ""
       (<["GEMINI_API_KEY" := "secret"]> (set_defaults defaults port_only))
     = Some (<["GEMINI_API_KEY" := "secret"]>
               (set_defaults defaults port_only)).
Proof.
  assert (setup_environment "secret" port_only
          = Some (<["GEMINI_API_KEY" := "secret"]>
                    (set_defaults defaults port_only))) as hs
    by (vm_compute; reflexivity).
  exact (conj hs (setup_is_idempotent "secret" "" port_only _ hs)).
Defined.

Lemma setup_exits_witness :
  ("" = ""
   /\ ((∅ : gmap string string) !! "GEMINI_API_KEY" = None
       \/ (∅ : gmap string string) !! "GEMINI_API_KEY" = Some ""))
  /\ setup_environment "" ∅ = None.
Proof.
  assert ("" = ""
          /\ ((∅ : gmap string string) !! "GEMINI_API_KEY" = None
              \/ (∅ : gmap string string) !! "GEMINI_API_KEY" = Some ""))
    as h by (split; [reflexivity | left; reflexivity]).
  exact (conj h (proj2 (setup_exits_without_api_key "" ∅) h)).
Defined.

Lemma malformed_frame_witness :
  ready active 0
  /\ is_Some (websocket (gemini_service active))
  /\ exists st1 st' l,
       listen_for_responses (P := strict_pydantic) 0
         ([text_frame "one"] ++ Unparseable :: [Unparseable]) Exhausted active
       = (Ok tt, st1)
       /\ listen_for_responses (P := strict_pydantic) 0
            ([text_frame "one"]
             ++ Unparseable :: [Unparseable] ++ text_frame "two"
                :: [text_frame "three"])
            (Raises ConnectionClosed) active
          = (Ok tt, st')
       /\ client_sent st' 0
          = client_sent st1 0 ++ Transcript (JStr "two") false :: l
       /\ message_count (gemini_service st')
          = message_count (gemini_service active)
            + length ([text_frame "one"]
                      ++ Unparseable :: [Unparseable] ++ text_frame "two"
                         :: [text_frame "three"]).
Proof.
  assert (is_Some (websocket (gemini_service active))) as hw
    by (eexists; vm_compute; reflexivity).
  exact (conj ready_active (conj hw
    (malformed_frame_does_not_stop_pump (P := strict_pydantic) 0
       [text_frame "one"] [Unparseable] [text_frame "three"] "two"
       (Raises ConnectionClosed) active ready_active hw))).
Defined.
